(** * contactjs: the pointer listener and its constants

    A shallow embedding of [src/input-consts.ts], of the [PointerListener]
    class of [src/index.ts] and of the event listeners of
    [tests/gestures/test.js], with the properties of the gesture
    recogniser's dispatcher stated over it.

    The classes [Contact] and the gesture recognisers ([Tap], [Pan], ...)
    are used by the listener but are not part of these sources: the
    listener is embedded over their interfaces. *)

From stdpp Require Import base option strings list gmap pretty.
From Stdlib Require Import ZArith Ascii.

Local Open Scope string_scope.
Local Open Scope list_scope.

(** ** Statements: state, effects and exceptions *)

Module JS.

Inductive JSError : Set :=
| TypeError (message : string)
| Error (message : string).

(** How a statement completes. *)
Inductive Completion (A : Type) : Type :=
| Normal (a : A)
| Throw (e : JSError).
Arguments Normal {A} a.
Arguments Throw {A} e.

Section Exec.
Context {State Effect : Type}.

(** A statement runs on a state, leaves it changed, has effects on the
    world outside it and completes normally or throws; what it did
    before it threw stays done. *)
Definition Exec (A : Type) : Type :=
  State -> State * list Effect * Completion A.

Definition ret {A} (a : A) : Exec A := fun s => (s, [], Normal a).

(** An outcome that comes after the effects [t]. *)
Definition after {A} (t : list Effect) (outcome : State * list Effect * Completion A)
  : State * list Effect * Completion A :=
  match outcome with
  | (s, t', r) => (s, t ++ t', r)
  end.

Definition bind {A B} (m : Exec A) (k : A -> Exec B) : Exec B :=
  fun s =>
    match m s with
    | (s1, t1, Normal a) => after t1 (k a s1)
    | (s1, t1, Throw e) => (s1, t1, Throw e)
    end.

Definition throw {A} (e : JSError) : Exec A := fun s => (s, [], Throw e).
Definition effect (e : Effect) : Exec unit := fun s => (s, [e], Normal tt).
Definition read {A} (f : State -> A) : Exec A := fun s => (s, [], Normal (f s)).
Definition write (f : State -> State) : Exec unit := fun s => (f s, [], Normal tt).

(** A completion that touches neither state nor world. *)
Definition lift {A} (r : Completion A) : Exec A := fun s => (s, [], r).

Fixpoint effects (l : list Effect) : Exec unit :=
  match l with
  | [] => ret tt
  | e :: l => bind (effect e) (fun _ => effects l)
  end.

(** [for (let g = g0; g < g0 + n; g++) body(g)] *)
Fixpoint for_loop (g : nat) (n : nat) (body : nat -> Exec unit) : Exec unit :=
  match n with
  | O => ret tt
  | S n => bind (body g) (fun _ => for_loop (S g) n body)
  end.

End Exec.

Arguments Exec : clear implicits.

Declare Scope exec_scope.
Delimit Scope exec_scope with exec.
Notation "x <- m ;; k" := (bind m (fun x => k))
  (at level 100, m at next level, right associativity) : exec_scope.
Notation "m ;;; k" := (bind m (fun _ => k))
  (at level 100, right associativity) : exec_scope.

End JS.

(** ** input-consts.ts *)

Module InputConsts.

Definition DIRECTION_NONE : string := "0".
Definition DIRECTION_LEFT : string := "left".
Definition DIRECTION_RIGHT : string := "right".
Definition DIRECTION_UP : string := "up".
Definition DIRECTION_DOWN : string := "down".

Definition DIRECTION_HORIZONTAL : list string :=
  [DIRECTION_LEFT; DIRECTION_RIGHT].
Definition DIRECTION_VERTICAL : list string :=
  [DIRECTION_UP; DIRECTION_DOWN].
Definition DIRECTION_ALL : list string :=
  [DIRECTION_LEFT; DIRECTION_RIGHT; DIRECTION_UP; DIRECTION_DOWN].

(** [enum GestureState { Possible = "possible", Blocked = "blocked" }] *)
Inductive GestureState : Set :=
| Possible
| Blocked.

(** The members of the enum, in declaration order. *)
Definition GestureState_members : list GestureState := [Possible; Blocked].

(** The member's name in the enum declaration. *)
Definition GestureState_name (s : GestureState) : string :=
  match s with
  | Possible => "Possible"
  | Blocked => "Blocked"
  end.

(** The string the member stands for at run time. *)
Definition GestureState_value (s : GestureState) : string :=
  match s with
  | Possible => "possible"
  | Blocked => "blocked"
  end.

#[global] Instance GestureState_eq_dec : EqDecision GestureState.
Proof. solve_decision. Defined.

(** The state names of the specification's recogniser state machine, as
    the specification lists them. *)
Definition spec_state_names : list string :=
  ["Possible"; "Began"; "Changed"; "Ended"; "Cancelled"; "Failed"; "Blocked"].

(** The direction values as the specification lists them. *)
Definition spec_directions : list string :=
  ["none"; "left"; "right"; "up"; "down"].

(** Modelled from the spec: the state a recogniser starts in.  The
    recogniser classes are not among the sources; the specification
    names [Possible] as the initial state. *)
Definition initial_state : GestureState := Possible.

(** Modelled from the spec: the direction buckets.  The specification
    lists them: "one of {none, left, right, up, down}". *)
Inductive Bucket : Set :=
| bucket_none
| bucket_left
| bucket_right
| bucket_up
| bucket_down.

#[global] Instance Bucket_eq_dec : EqDecision Bucket.
Proof. solve_decision. Defined.

(** The buckets, in the order the specification lists them. *)
Definition Bucket_members : list Bucket :=
  [bucket_none; bucket_left; bucket_right; bucket_up; bucket_down].

(** The bucket's name in the specification. *)
Definition Bucket_name (b : Bucket) : string :=
  match b with
  | bucket_none => "none"
  | bucket_left => "left"
  | bucket_right => "right"
  | bucket_up => "up"
  | bucket_down => "down"
  end.

(** The constant input-consts.ts declares for the bucket:
    [DIRECTION_NONE] for none, [DIRECTION_LEFT] for left, and so on. *)
Definition Bucket_constant (b : Bucket) : string :=
  match b with
  | bucket_none => DIRECTION_NONE
  | bucket_left => DIRECTION_LEFT
  | bucket_right => DIRECTION_RIGHT
  | bucket_up => DIRECTION_UP
  | bucket_down => DIRECTION_DOWN
  end.

(** Modelled from the spec: the quantizer of a motion vector into a
    direction bucket.  The function that derives a direction
    (contact.ts) is not among the sources.  The specification says: the
    bucket is "derived by quantizing a motion vector into the dominant
    of the horizontal or vertical axis; zero-length vectors map to
    none", and a dominant horizontal axis with a positive delta gives
    right, "and symmetric for left/up/down".  What the specification
    leaves open is a parameter here: which axis is the dominant one
    when the two deltas are equally long, and which of up and down a
    positive [deltaY] is. *)
Section Direction.
Variable horizontal_on_tie : Z -> Z -> bool.
Variable positive_deltaY_is_down : bool.

(** Whether the horizontal axis is the dominant one. *)
Definition horizontal_dominant (deltaX deltaY : Z) : bool :=
  if decide (Z.abs deltaY < Z.abs deltaX)%Z then true
  else if decide (Z.abs deltaX < Z.abs deltaY)%Z then false
  else horizontal_on_tie deltaX deltaY.

Definition bucket (deltaX deltaY : Z) : Bucket :=
  if decide (deltaX = 0 /\ deltaY = 0)%Z then bucket_none
  else if horizontal_dominant deltaX deltaY then
    (if decide (0 < deltaX)%Z then bucket_right else bucket_left)
  else if bool_decide (0 < deltaY)%Z then
    (if positive_deltaY_is_down then bucket_down else bucket_up)
  else
    (if positive_deltaY_is_down then bucket_up else bucket_down).

(** The direction as the payload of an event carries it: the constant
    of the bucket. *)
Definition direction (deltaX deltaY : Z) : string :=
  Bucket_constant (bucket deltaX deltaY).
End Direction.

End InputConsts.

(** ** index.ts: the PointerListener class *)

Module Index.
Import JS.

(** The gesture classes of "./gestures". *)
Inductive GestureClass : Set :=
| Tap
| Press
| Pan
| Pinch
| Rotate
| TwoFingerPan.

#[global] Instance GestureClass_eq_dec : EqDecision GestureClass.
Proof. solve_decision. Defined.

Definition GestureClass_name (c : GestureClass) : string :=
  match c with
  | Tap => "Tap"
  | Press => "Press"
  | Pan => "Pan"
  | Pinch => "Pinch"
  | Rotate => "Rotate"
  | TwoFingerPan => "TwoFingerPan"
  end.

(** The names index.ts exports, in the order of its export lists. *)
Definition exports : list string :=
  ["DIRECTION_LEFT"; "DIRECTION_RIGHT"; "DIRECTION_UP"; "DIRECTION_DOWN";
   "DIRECTION_VERTICAL"; "DIRECTION_HORIZONTAL"; "GestureState";
   "deg2rad"; "rad2deg"; "calcAngleDegrees"; "calcAngleRad";
   "PointerListener";
   "Tap"; "Press"; "Pan"; "Pinch"; "Rotate"; "TwoFingerPan"].

(** [var ALL_GESTURE_CLASSES = [Tap, Pan, Pinch, Rotate, TwoFingerPan];] *)
Definition ALL_GESTURE_CLASSES : list GestureClass :=
  [Tap; Pan; Pinch; Rotate; TwoFingerPan].

(** What the listener reads of a DOM pointer event. *)
Record PointerEvent : Set := {
  pointerId : Z;
  clientX : Z;
  clientY : Z;
  timeStamp : Z
}.

(** A DOM touch event; the listener passes it on unread. *)
Record TouchEvent : Set := {
  changedTouches : list (Z * Z * Z);
  touchTimeStamp : Z
}.

(** What index.ts takes from outside: the DOM element type, the
    [Contact] class of "./contact" with the methods the listener calls,
    and gesture instances with the two methods the listener calls.
    [recognize] receives [this.contact] as it is, [null] included
    ([None]); the events it dispatches on the element are its second
    result.  A method of a contact or of a gesture returns, and changes
    the object it is called on and nothing else of the listener. *)
Class Imports := {
  DomElement : Type;
  Contact : Type;
  new_Contact : PointerEvent -> Contact;
  isActive : Contact -> bool;
  addPointer : Contact -> PointerEvent -> Contact;
  onPointerMove : Contact -> PointerEvent -> Contact;
  onPointerUp : Contact -> PointerEvent -> Contact;
  onPointerLeave : Contact -> PointerEvent -> Contact;
  onPointerCancel : Contact -> PointerEvent -> Contact;
  Gesture : Type;
  GestureEvent : Type;
  new_Gesture : GestureClass -> DomElement -> Gesture;
  recognize : Gesture -> option Contact -> Gesture * list GestureEvent;
  onTouchMove : Gesture -> TouchEvent -> Gesture
}.

Section PointerListener.
Context `{Imports}.

(** A value that can stand in the [supportedGestures] option. *)
Inductive JSValue : Type :=
| JSUndefined
| JSNull
| JSBoolean (b : bool)
| JSNumber (n : Z)
| JSBigInt (n : Z)
| JSString (s : string)
| JSSymbol (description : string)
| JSGestureClass (c : GestureClass)
| JSFunction (construct : DomElement -> JSError + Gesture)
| JSObject (g : Gesture).

Definition typeof (v : JSValue) : string :=
  match v with
  | JSUndefined => "undefined"
  | JSNull => "object"
  | JSBoolean _ => "boolean"
  | JSNumber _ => "number"
  | JSBigInt _ => "bigint"
  | JSString _ => "string"
  | JSSymbol _ => "symbol"
  | JSGestureClass _ => "function"
  | JSFunction _ => "function"
  | JSObject _ => "object"
  end.

(** The [options] argument of the constructor: the keys the listener
    reads.  A hook is a host callback; the flag says the key is an own
    property of the argument. *)
Record Options : Type := {
  opt_supportedGestures : option (list JSValue);
  opt_handleTouchEvents : option bool;
  opt_pointerdown : bool;
  opt_pointermove : bool;
  opt_pointerup : bool;
  opt_pointercancel : bool
}.

(** [options = options || {}] *)
Definition no_options : Options :=
  {| opt_supportedGestures := None; opt_handleTouchEvents := None;
     opt_pointerdown := false; opt_pointermove := false;
     opt_pointerup := false; opt_pointercancel := false |}.

(** [this.options].  An entry of [supportedGestures] is a gesture
    instance or [null] ([None]). *)
Record ListenerOptions : Type := {
  supportedGestures : list (option Gesture);
  handleTouchEvents : bool;
  pointerdown_hook : bool;
  pointermove_hook : bool;
  pointerup_hook : bool;
  pointercancel_hook : bool
}.

(** The instance: its fields, and the event types for which the
    constructor has added a listener to [domElement]. *)
Record PointerListener : Type := {
  DEBUG : bool;
  options : ListenerOptions;
  domElement : DomElement;
  contact : option Contact;
  listeners : list string
}.

Inductive ContactMethod : Set :=
| call_addPointer
| call_onPointerMove
| call_onPointerUp
| call_onPointerLeave
| call_onPointerCancel.

Definition ContactMethod_name (m : ContactMethod) : string :=
  match m with
  | call_addPointer => "addPointer"
  | call_onPointerMove => "onPointerMove"
  | call_onPointerUp => "onPointerUp"
  | call_onPointerLeave => "onPointerLeave"
  | call_onPointerCancel => "onPointerCancel"
  end.

Definition ContactMethod_run (m : ContactMethod) : Contact -> PointerEvent -> Contact :=
  match m with
  | call_addPointer => addPointer
  | call_onPointerMove => onPointerMove
  | call_onPointerUp => onPointerUp
  | call_onPointerLeave => onPointerLeave
  | call_onPointerCancel => onPointerCancel
  end.

Inductive Hook : Set :=
| hook_pointerdown
| hook_pointermove
| hook_pointerup
| hook_pointercancel.

(** What a handler does to the world outside the listener's fields,
    in the order it does it.  [Recognize g c] is the call
    [supportedGestures[g].recognize(c)]; [DispatchEvent g e] is a
    gesture event that call published. *)
Inductive Effect : Type :=
| SetPointerCapture (id : Z)
| ReleasePointerCapture (id : Z)
| NewContact (ev : PointerEvent)
| ContactCall (m : ContactMethod) (ev : PointerEvent)
| Recognize (g : nat) (c : option Contact)
| DispatchEvent (g : nat) (e : GestureEvent)
| TouchMove (g : nat) (ev : TouchEvent)
| CallHook (h : Hook) (ev : PointerEvent).

(** A statement of the listener's methods and handlers. *)
Definition Exec : Type -> Type := JS.Exec PointerListener Effect.

End PointerListener.

Section Handlers.
Context `{Imports}.
Local Open Scope exec_scope.

Definition set_contact (c : option Contact) (self : PointerListener) : PointerListener :=
  {| DEBUG := DEBUG self; options := options self;
     domElement := domElement self; contact := c;
     listeners := listeners self |}.

(** [this.options.supportedGestures[g]] is an object, mutated in
    place by its own methods. *)
Definition set_gesture (g : nat) (gesture : Gesture) (self : PointerListener) : PointerListener :=
  let o := options self in
  {| DEBUG := DEBUG self;
     options :=
       {| supportedGestures := <[g := Some gesture]> (supportedGestures o);
          handleTouchEvents := handleTouchEvents o;
          pointerdown_hook := pointerdown_hook o;
          pointermove_hook := pointermove_hook o;
          pointerup_hook := pointerup_hook o;
          pointercancel_hook := pointercancel_hook o |};
     domElement := domElement self; contact := contact self;
     listeners := listeners self |}.

(** [self.contact == null || self.contact.isActive == false] *)
Definition no_active_contact (c : option Contact) : bool :=
  match c with
  | None => true
  | Some c => negb (isActive c)
  end.

(** [self.contact != null && self.contact.isActive == true] *)
Definition has_active_contact (c : option Contact) : bool :=
  match c with
  | None => false
  | Some c => isActive c
  end.

(** [self.contact.m(event)]: the contact is mutated in place; on
    [null] the property access throws. *)
Definition contact_call (m : ContactMethod) (ev : PointerEvent) : Exec unit :=
  c <- read contact ;;
  match c with
  | None =>
      throw (TypeError ("Cannot read properties of null (reading '"
                        +:+ ContactMethod_name m +:+ "')"))
  | Some c =>
      write (set_contact (Some (ContactMethod_run m c ev))) ;;;
      effect (ContactCall m ev)
  end.

Definition has_hook (h : Hook) (o : ListenerOptions) : bool :=
  match h with
  | hook_pointerdown => pointerdown_hook o
  | hook_pointermove => pointermove_hook o
  | hook_pointerup => pointerup_hook o
  | hook_pointercancel => pointercancel_hook o
  end.

(** [if (hasOwnProperty.call(self.options, h)) self.options.h(event, self)] *)
Definition call_hook (h : Hook) (ev : PointerEvent) : Exec unit :=
  present <- read (fun self => has_hook h (options self)) ;;
  if present : bool then effect (CallHook h ev) else ret tt.

(** The body of the loop of [recognizeGestures]:
    [let gesture = this.options.supportedGestures[g];
     gesture.recognize(this.contact);] *)
Definition recognize_at (g : nat) : Exec unit :=
  gesture <- read (fun self => supportedGestures (options self) !! g) ;;
  match gesture with
  | Some (Some gesture) =>
      c <- read contact ;;
      effect (Recognize g c) ;;;
      write (set_gesture g (fst (recognize gesture c))) ;;;
      effects (DispatchEvent g <$> snd (recognize gesture c))
  | Some None =>
      throw (TypeError "Cannot read properties of null (reading 'recognize')")
  | None =>
      throw (TypeError "Cannot read properties of undefined (reading 'recognize')")
  end.

(** [recognizeGestures ()]: run all configured recognizers.  The loop
    bound [supportedGestures.length] does not change in the loop. *)
Definition recognizeGestures : Exec unit :=
  n <- read (fun self => length (supportedGestures (options self))) ;;
  for_loop 0 n recognize_at.

(** The listener of "pointerdown". *)
Definition pointerdown (event : PointerEvent) : Exec unit :=
  effect (SetPointerCapture (pointerId event)) ;;;
  c <- read contact ;;
  (if no_active_contact c then
     write (set_contact (Some (new_Contact event))) ;;;
     effect (NewContact event)
   else
     contact_call call_addPointer event) ;;;
  call_hook hook_pointerdown event.

(** The listener of "pointermove". *)
Definition pointermove (event : PointerEvent) : Exec unit :=
  c <- read contact ;;
  if has_active_contact c then
    contact_call call_onPointerMove event ;;;
    recognizeGestures ;;;
    call_hook hook_pointermove event
  else ret tt.

(** The listener of "pointerup". *)
Definition pointerup (event : PointerEvent) : Exec unit :=
  effect (ReleasePointerCapture (pointerId event)) ;;;
  c <- read contact ;;
  if has_active_contact c then
    contact_call call_onPointerUp event ;;;
    recognizeGestures ;;;
    call_hook hook_pointerup event
  else ret tt.

(** The listener of "pointerleave". *)
Definition pointerleave (event : PointerEvent) : Exec unit :=
  c <- read contact ;;
  if has_active_contact c then
    contact_call call_onPointerLeave event ;;;
    recognizeGestures
  else ret tt.

(** The listener of "pointercancel".  Its [this.DEBUG] is a property of
    the element, not of the listener; the log it guards is left out. *)
Definition pointercancel (event : PointerEvent) : Exec unit :=
  effect (ReleasePointerCapture (pointerId event)) ;;;
  contact_call call_onPointerCancel event ;;;
  recognizeGestures ;;;
  call_hook hook_pointercancel event.

(** The body of the loop of the "touchmove" listener:
    [let gesture = self.options.supportedGestures[g];
     gesture.onTouchMove(event);] *)
Definition touchmove_at (event : TouchEvent) (g : nat) : Exec unit :=
  gesture <- read (fun self => supportedGestures (options self) !! g) ;;
  match gesture with
  | Some (Some gesture) =>
      effect (TouchMove g event) ;;;
      write (set_gesture g (onTouchMove gesture event))
  | Some None =>
      throw (TypeError "Cannot read properties of null (reading 'onTouchMove')")
  | None =>
      throw (TypeError "Cannot read properties of undefined (reading 'onTouchMove')")
  end.

(** The listener of "touchmove": fire onTouchMove for all gestures. *)
Definition touchmove (event : TouchEvent) : Exec unit :=
  n <- read (fun self => length (supportedGestures (options self))) ;;
  for_loop 0 n (touchmove_at event).

(** An input sample: a pointer event by phase, or a raw touch-move. *)
Inductive Sample : Set :=
| Down (event : PointerEvent)
| Move (event : PointerEvent)
| Up (event : PointerEvent)
| Leave (event : PointerEvent)
| Cancel (event : PointerEvent)
| RawTouchMove (event : TouchEvent).

Definition event_type (s : Sample) : string :=
  match s with
  | Down _ => "pointerdown"
  | Move _ => "pointermove"
  | Up _ => "pointerup"
  | Leave _ => "pointerleave"
  | Cancel _ => "pointercancel"
  | RawTouchMove _ => "touchmove"
  end.

Definition handler (s : Sample) : Exec unit :=
  match s with
  | Down event => pointerdown event
  | Move event => pointermove event
  | Up event => pointerup event
  | Leave event => pointerleave event
  | Cancel event => pointercancel event
  | RawTouchMove event => touchmove event
  end.

(** The element delivers a sample to the listener added for its type,
    if one was added. *)
Definition dispatch (s : Sample) : Exec unit :=
  registered <- read (fun self => bool_decide (event_type s ∈ listeners self)) ;;
  if registered : bool then handler s else ret tt.

(** Samples one after the other; a throw ends one sample's handler,
    not the stream: the outcome of each sample is kept. *)
Fixpoint deliver (samples : list Sample) (self : PointerListener)
  : PointerListener * list (list Effect * Completion unit) :=
  match samples with
  | [] => (self, [])
  | s :: samples =>
      match dispatch s self with
      | (self1, t, r) =>
          match deliver samples self1 with
          | (self2, outcomes) => (self2, (t, r) :: outcomes)
          end
      end
  end.

(** *** The constructor *)

(** [new GestureClass(domElement)] *)
Definition construct (GestureClass : JSValue) (domElement : DomElement)
  : Completion (option Gesture) :=
  match GestureClass with
  | JSGestureClass c => Normal (Some (new_Gesture c domElement))
  | JSFunction f =>
      match f domElement with
      | inl e => Throw e
      | inr g => Normal (Some g)
      end
  | _ => Throw (TypeError "GestureClass is not a constructor")
  end.

(** An entry of type "object" taken as the gesture instance. *)
Definition as_gesture (GestureClass : JSValue) : option Gesture :=
  match GestureClass with
  | JSObject g => Some g
  | _ => None
  end.

(** The body of the constructor's loop over [supportedGestures]. *)
Definition instantiate (domElement : DomElement) (GestureClass : JSValue)
  : Completion (option Gesture) :=
  if decide (typeof GestureClass = "function") then
    construct GestureClass domElement
  else if decide (typeof GestureClass = "object") then
    Normal (as_gesture GestureClass)
  else
    Throw (Error ("unsupported gesture type: " +:+ typeof GestureClass)).

(** The loop: the gestures pushed to [this.options.supportedGestures]. *)
Fixpoint instantiate_all (domElement : DomElement) (supported : list JSValue)
  : Completion (list (option Gesture)) :=
  match supported with
  | [] => Normal []
  | GestureClass :: supported =>
      match instantiate domElement GestureClass with
      | Throw e => Throw e
      | Normal gesture =>
          match instantiate_all domElement supported with
          | Throw e => Throw e
          | Normal gestures => Normal (gesture :: gestures)
          end
      end
  end.

(** [addTouchListeners ()]: the event types it adds a listener for. *)
Definition addTouchListeners (o : ListenerOptions) : list string :=
  if handleTouchEvents o then ["touchmove"] else [].

(** [new PointerListener(domElement, options)]: the instance, or what
    the constructor throws. *)
Definition constructor (domElement : DomElement) (options : option Options)
  : Completion PointerListener :=
  let options := default no_options options in
  let supported :=
    match opt_supportedGestures options with
    | Some given => given
    | None => JSGestureClass <$> ALL_GESTURE_CLASSES
    end in
  match instantiate_all domElement supported with
  | Throw e => Throw e
  | Normal gestures =>
      let o :=
        {| supportedGestures := gestures;
           handleTouchEvents := default true (opt_handleTouchEvents options);
           pointerdown_hook := opt_pointerdown options;
           pointermove_hook := opt_pointermove options;
           pointerup_hook := opt_pointerup options;
           pointercancel_hook := opt_pointercancel options |} in
      Normal
        {| DEBUG := false;
           options := o;
           domElement := domElement;
           contact := None;
           listeners :=
             ["pointerdown"; "pointermove"; "pointerup"; "pointerleave";
              "pointercancel"] ++ addTouchListeners o |}
  end.

(** *** What a run of the recognizers amounts to *)

Definition with_gestures (gestures : list (option Gesture)) (self : PointerListener)
  : PointerListener :=
  let o := options self in
  {| DEBUG := DEBUG self;
     options :=
       {| supportedGestures := gestures;
          handleTouchEvents := handleTouchEvents o;
          pointerdown_hook := pointerdown_hook o;
          pointermove_hook := pointermove_hook o;
          pointerup_hook := pointerup_hook o;
          pointercancel_hook := pointercancel_hook o |};
     domElement := domElement self; contact := contact self;
     listeners := listeners self |}.

(** The gestures after each has evaluated the contact [c]. *)
Definition recognized (c : option Contact) (gestures : list (option Gesture))
  : list (option Gesture) :=
  (fun gesture : option Gesture => (fun g => fst (recognize g c)) <$> gesture) <$> gestures.

(** The calls of [recognize] on the contact [c], from index [g] on, each
    followed by the events it publishes. *)
Fixpoint recognition (c : option Contact) (g : nat) (gestures : list (option Gesture))
  : list Effect :=
  match gestures with
  | [] => []
  | gesture :: gestures =>
      match gesture with
      | Some gesture =>
          Recognize g c :: (DispatchEvent g <$> snd (recognize gesture c))
      | None => []
      end ++ recognition c (S g) gestures
  end.

(** The evaluations in a trace: which gesture, on which contact. *)
Fixpoint evaluations (trace : list Effect) : list (nat * option Contact) :=
  match trace with
  | [] => []
  | Recognize g c :: trace => (g, c) :: evaluations trace
  | _ :: trace => evaluations trace
  end.

(** The updates of the contact in a trace. *)
Fixpoint contact_updates (trace : list Effect) : list Effect :=
  match trace with
  | [] => []
  | NewContact event :: trace => NewContact event :: contact_updates trace
  | ContactCall m event :: trace => ContactCall m event :: contact_updates trace
  | _ :: trace => contact_updates trace
  end.

(** The gesture events in a trace. *)
Fixpoint dispatched (trace : list Effect) : list (nat * GestureEvent) :=
  match trace with
  | [] => []
  | DispatchEvent g e :: trace => (g, e) :: dispatched trace
  | _ :: trace => dispatched trace
  end.

(** The gestures after each has received the touch event. *)
Definition touched (event : TouchEvent) (gestures : list (option Gesture))
  : list (option Gesture) :=
  (fun gesture : option Gesture => (fun g => onTouchMove g event) <$> gesture) <$> gestures.

(** The phases that update an existing contact: the method called, the
    capture released before, the hook called after. *)
Definition update_of (s : Sample) : option (ContactMethod * PointerEvent) :=
  match s with
  | Move event => Some (call_onPointerMove, event)
  | Up event => Some (call_onPointerUp, event)
  | Leave event => Some (call_onPointerLeave, event)
  | Cancel event => Some (call_onPointerCancel, event)
  | Down _ | RawTouchMove _ => None
  end.

(** What of a listener no handler changes: the listeners added, the
    flags of its options, and which entries of [supportedGestures] are
    instances. *)
Definition configuration (self : PointerListener)
  : list string * (bool * bool * bool * bool * bool) * list bool :=
  let o := options self in
  (listeners self,
   (handleTouchEvents o, pointerdown_hook o, pointermove_hook o,
    pointerup_hook o, pointercancel_hook o),
   (fun gesture : option Gesture => bool_decide (is_Some gesture)) <$> supportedGestures o).

(** The trace of a hook: the call, when the option is there. *)
Definition hook_trace (h : Hook) (event : PointerEvent) (self : PointerListener)
  : list Effect :=
  if has_hook h (options self) then [CallHook h event] else [].

(** The capture released at the start of the handlers of "pointerup"
    and "pointercancel". *)
Definition release_trace (s : Sample) : list Effect :=
  match s with
  | Up event | Cancel event => [ReleasePointerCapture (pointerId event)]
  | _ => []
  end.

(** The hook called at the end of a handler; "pointerleave" and
    "touchmove" have none. *)
Definition hook_after (s : Sample) (self : PointerListener) : list Effect :=
  match s with
  | Down event => hook_trace hook_pointerdown event self
  | Move event => hook_trace hook_pointermove event self
  | Up event => hook_trace hook_pointerup event self
  | Cancel event => hook_trace hook_pointercancel event self
  | Leave _ | RawTouchMove _ => []
  end.

(** A statement that leaves the configuration as it is, also when it
    throws. *)
Definition preserves_configuration {A} (m : Exec A) : Prop :=
  forall self, configuration (m self).1.1 = configuration self.

End Handlers.

End Index.

(** ** tests/gestures/test.js: the page that listens to the gesture events *)

Module GesturesTest.
Import JS.

(** A JavaScript value as far as the page handles one.  A number is an
    integer here; a function is its source text and what a call without
    arguments returns. *)
#[warnings="-register-all"]
Inductive Value : Type :=
| Undefined
| Null
| Boolean (b : bool)
| Number (n : Z)
| String (s : string)
| Function (source : string) (returns : Value)
| Object (props : gmap string Value).

(** A DOM [CustomEvent]: [type] is a string by its interface, [detail]
    is whatever the sender put there. *)
Record CustomEvent : Type := {
  type : string;
  detail : Value
}.

(** The built-in conversions between numbers and strings. *)
Class Builtins := {
  StringToNumber : string -> option Z;
  NumberToString : Z -> string
}.

(** [var transform = { translate: {x, y}, scale: {x, y, z}, rotate: {x, y, z, angle} }] *)
Record Transform : Type := {
  translate_x : Value; translate_y : Value;
  scale_x : Value; scale_y : Value; scale_z : Value;
  rotate_x : Value; rotate_y : Value; rotate_z : Value; rotate_angle : Value
}.

(** The globals of test.js and the part of the document it writes:
    [document] gives, for each id that has an element, the string last
    assigned to its [textContent]. *)
Record Page : Type := {
  rectangle_className : string;
  transform : Transform;
  ticking : bool;
  TAP_ACTIVE : bool;
  PRESS_ACTIVE : bool;
  document : gmap string string
}.

Inductive Output : Type :=
| ConsoleLog (v : Value)
| RequestAnimationFrame (transformString : string)
| SetTimeout_resetElementTransform.

Definition Exec : Type -> Type := JS.Exec Page Output.

Section Page.
Context `{Builtins}.
Local Open Scope exec_scope.

(** [v.key], for the keys test.js reads: none of them is a property of
    Object.prototype, of a primitive's wrapper or of a function, so
    only an own property of an object gives a value. *)
Definition get (v : Value) (key : string) : Completion Value :=
  match v with
  | Undefined =>
      Throw (TypeError ("Cannot read properties of undefined (reading '" +:+ key +:+ "')"))
  | Null =>
      Throw (TypeError ("Cannot read properties of null (reading '" +:+ key +:+ "')"))
  | Object props => Normal (default Undefined (props !! key))
  | Boolean _ | Number _ | String _ | Function _ _ => Normal Undefined
  end.

(** [v.k1.k2...] *)
Fixpoint path (v : Value) (keys : list string) : Completion Value :=
  match keys with
  | [] => Normal v
  | key :: keys =>
      match get v key with
      | Normal v => path v keys
      | Throw e => Throw e
      end
  end.

Definition is_primitive (v : Value) : bool :=
  match v with
  | Function _ _ | Object _ => false
  | _ => true
  end.

(** The preferred type of a conversion to a primitive. *)
Inductive PreferredType : Set :=
| prefer_default
| prefer_string.

(** One step of OrdinaryToPrimitive: the method [name] of the object
    with own properties [props]; [inherited] is what the method of
    Object.prototype returns when the object has none of its own.
    [None]: the method is not callable or its result is an object. *)
Definition method_primitive (props : gmap string Value) (name : string)
  (inherited : option Value) : option Value :=
  match props !! name with
  | Some (Function _ r) => if is_primitive r then Some r else None
  | Some _ => None
  | None => inherited
  end.

(** ToPrimitive: valueOf then toString, or toString then valueOf with
    the hint "string".  The inherited valueOf returns the object, the
    inherited toString the text below. *)
Definition ToPrimitive (hint : PreferredType) (v : Value) : Completion Value :=
  let convert props text :=
    let valueOf := method_primitive props "valueOf" None in
    let toString := method_primitive props "toString" (Some (String text)) in
    match hint with
    | prefer_default =>
        match valueOf, toString with
        | Some p, _ => Normal p
        | None, Some p => Normal p
        | None, None => Throw (TypeError "Cannot convert object to primitive value")
        end
    | prefer_string =>
        match toString, valueOf with
        | Some p, _ => Normal p
        | None, Some p => Normal p
        | None, None => Throw (TypeError "Cannot convert object to primitive value")
        end
    end in
  match v with
  | Object props => convert props "[object Object]"
  | Function source _ => convert (∅ : gmap string Value) source
  | _ => Normal v
  end.

(** ToString of a primitive. *)
Definition primitive_to_string (v : Value) : string :=
  match v with
  | Undefined => "undefined"
  | Null => "null"
  | Boolean true => "true"
  | Boolean false => "false"
  | Number n => NumberToString n
  | String s => s
  | Function _ _ | Object _ => ""
  end.

(** ToNumber of a primitive; [None] is NaN. *)
Definition primitive_to_number (v : Value) : option Z :=
  match v with
  | Undefined => None
  | Null => Some 0%Z
  | Boolean true => Some 1%Z
  | Boolean false => Some 0%Z
  | Number n => Some n
  | String s => StringToNumber s
  | Function _ _ | Object _ => None
  end.

(** [v + text] with a string on the right. *)
Definition concat (v : Value) (text : string) : Completion string :=
  match ToPrimitive prefer_default v with
  | Normal p => Normal (primitive_to_string p +:+ text)
  | Throw e => Throw e
  end.

(** [text + v] with a string on the left. *)
Definition concat_left (text : string) (v : Value) : Completion string :=
  match ToPrimitive prefer_default v with
  | Normal p => Normal (text +:+ primitive_to_string p)
  | Throw e => Throw e
  end.

(** [v == text] *)
Definition loose_eq_string (v : Value) (text : string) : Completion bool :=
  let primitive p :=
    match p with
    | Undefined | Null => false
    | String s => bool_decide (s = text)
    | _ => match primitive_to_number p, StringToNumber text with
           | Some n, Some m => bool_decide (n = m)
           | _, _ => false
           end
    end in
  match ToPrimitive prefer_default v with
  | Normal p => Normal (primitive p)
  | Throw e => Throw e
  end.

(** [v == b] for a boolean [b]: the boolean is compared as its number. *)
Definition loose_eq_boolean (v : Value) (b : bool) : Completion bool :=
  let m := if b then 1%Z else 0%Z in
  let primitive p :=
    match p with
    | Undefined | Null => false
    | _ => match primitive_to_number p with
           | Some n => bool_decide (n = m)
           | None => false
           end
    end in
  match ToPrimitive prefer_default v with
  | Normal p => Normal (primitive p)
  | Throw e => Throw e
  end.

(** [event.type.indexOf(text) != -1] *)
Definition type_has (event : CustomEvent) (text : string) : bool :=
  bool_decide (is_Some (String.index 0 text (type event))).

(** [document.getElementById(id).textContent = v]: the right-hand side
    is a value already; a missing element is [null], and the
    assignment to its property throws.  The setter converts to a
    string, [null] and [undefined] to the empty one. *)
Definition set_textContent (id : string) (v : Value) : Exec unit :=
  present <- read (fun page => bool_decide (is_Some (document page !! id))) ;;
  if present : bool then
    text <- lift (match v with
                  | Null | Undefined => Normal ""
                  | _ => match ToPrimitive prefer_string v with
                         | Normal p => Normal (primitive_to_string p)
                         | Throw e => Throw e
                         end
                  end) ;;
    write (fun page =>
      {| rectangle_className := rectangle_className page;
         transform := transform page; ticking := ticking page;
         TAP_ACTIVE := TAP_ACTIVE page; PRESS_ACTIVE := PRESS_ACTIVE page;
         document := <[id := text]> (document page) |})
  else
    throw (TypeError "Cannot set properties of null (setting 'textContent')").

Definition set_className (name : string) : Exec unit :=
  write (fun page =>
    {| rectangle_className := name;
       transform := transform page; ticking := ticking page;
       TAP_ACTIVE := TAP_ACTIVE page; PRESS_ACTIVE := PRESS_ACTIVE page;
       document := document page |}).

Definition set_transform (t : Transform) : Exec unit :=
  write (fun page =>
    {| rectangle_className := rectangle_className page;
       transform := t; ticking := ticking page;
       TAP_ACTIVE := TAP_ACTIVE page; PRESS_ACTIVE := PRESS_ACTIVE page;
       document := document page |}).

Definition set_ticking (b : bool) : Exec unit :=
  write (fun page =>
    {| rectangle_className := rectangle_className page;
       transform := transform page; ticking := b;
       TAP_ACTIVE := TAP_ACTIVE page; PRESS_ACTIVE := PRESS_ACTIVE page;
       document := document page |}).

(** A string built with [+] from texts and values, left to right. *)
Fixpoint interpolate (text : string) (parts : list (string + Value)) : Completion string :=
  match parts with
  | [] => Normal text
  | inl more :: parts => interpolate (text +:+ more) parts
  | inr v :: parts =>
      match concat_left text v with
      | Normal text => interpolate text parts
      | Throw e => Throw e
      end
  end.

(** [f()] *)
Definition call (f : Value) : Completion Value :=
  match f with
  | Function _ returns => Normal returns
  | _ => Throw (TypeError "is not a function")
  end.

(** [function requestElementUpdate(wait)] *)
Definition requestElementUpdate : Exec unit :=
  t <- read transform ;;
  translate3d <- lift (interpolate ""
    [inl "translate3d("; inr (translate_x t); inl "px, ";
     inr (translate_y t); inl "px, 0)"]) ;;
  scale3d <- lift (interpolate ""
    [inl "scale3d("; inr (scale_x t); inl ", "; inr (scale_y t); inl ", ";
     inr (scale_z t); inl ")"]) ;;
  rotate3d <- lift (interpolate ""
    [inl "rotate3d("; inr (rotate_x t); inl ","; inr (rotate_y t); inl ",";
     inr (rotate_z t); inl ","; inr (rotate_angle t); inl "deg)"]) ;;
  let transformString := translate3d +:+ " " +:+ scale3d +:+ " " +:+ rotate3d in
  busy <- read ticking ;;
  if busy : bool then ret tt
  else
    effect (RequestAnimationFrame transformString) ;;;
    set_ticking true.

Definition initial_transform : Transform :=
  {| translate_x := Number 0; translate_y := Number 0;
     scale_x := Number 1; scale_y := Number 1; scale_z := Number 1;
     rotate_x := Number 0; rotate_y := Number 0; rotate_z := Number 0;
     rotate_angle := Number 0 |}.

(** [function resetElementTransform()] *)
Definition resetElementTransform : Exec unit :=
  set_className "animate" ;;;
  set_transform initial_transform ;;;
  busy <- read ticking ;;
  if busy : bool then effect SetTimeout_resetElementTransform
  else requestElementUpdate.

(** [function onPan(event)] *)
Definition onPan (event : CustomEvent) : Exec unit :=
  set_className "" ;;;
  deltaX <- lift (path (detail event) ["global"; "deltaX"]) ;;
  deltaY <- lift (path (detail event) ["global"; "deltaY"]) ;;
  t <- read transform ;;
  set_transform
    {| translate_x := deltaX; translate_y := deltaY;
       scale_x := scale_x t; scale_y := scale_y t; scale_z := scale_z t;
       rotate_x := rotate_x t; rotate_y := rotate_y t; rotate_z := rotate_z t;
       rotate_angle := rotate_angle t |} ;;;
  requestElementUpdate.

(** [recognizer.eventBaseName == "pan" && recognizer.isSwipe == true] *)
Definition is_swipe (recognizer : Value) : Completion bool :=
  match get recognizer "eventBaseName" with
  | Throw e => Throw e
  | Normal name =>
      match loose_eq_string name "pan" with
      | Throw e => Throw e
      | Normal false => Normal false
      | Normal true =>
          match get recognizer "isSwipe" with
          | Throw e => Throw e
          | Normal isSwipe => loose_eq_boolean isSwipe true
          end
      end
  end.

(** [function showOutput(event)] *)
Definition showOutput (event : CustomEvent) : Exec unit :=
  effect (ConsoleLog (detail event)) ;;;
  recognizer <- lift (get (detail event) "recognizer") ;;
  name <- lift (path (detail event) ["recognizer"; "eventBaseName"]) ;;
  elementId <- lift (concat name "-output") ;;
  swipe <- lift (is_swipe recognizer) ;;
  let elementId := if swipe : bool then "swipe-output" else elementId in
  effect (ConsoleLog (String elementId)) ;;;
  (if type_has event "start" then
     set_textContent elementId (String "start")
   else if type_has event "end" then
     swipe <- lift (is_swipe recognizer) ;;
     if swipe : bool then
       direction <- lift (path (detail event) ["live"; "direction"]) ;;
       set_textContent elementId direction
     else
       set_textContent elementId (String "end")
   else if type_has event "swipe" then
     set_textContent elementId (String "swipe")
   else
     set_textContent elementId (String "on")) ;;;
  (v <- lift (path (detail event) ["global"; "deltaX"]) ;;
   set_textContent "deltaX-global" v) ;;;
  (v <- lift (path (detail event) ["global"; "deltaY"]) ;;
   set_textContent "deltaY-global" v) ;;;
  (v <- lift (path (detail event) ["global"; "direction"]) ;;
   set_textContent "direction-global" v) ;;;
  (v <- lift (path (detail event) ["live"; "deltaX"]) ;;
   set_textContent "deltaX-live" v) ;;;
  (v <- lift (path (detail event) ["live"; "deltaY"]) ;;
   set_textContent "deltaY-live" v) ;;;
  (v <- lift (path (detail event) ["live"; "direction"]) ;;
   set_textContent "direction-live" v).

(** The listener of "pan":
    [console.log(event.detail.pointerManager.activePointerInput);
     onPan(event); showOutput(event);] *)
Definition pan_listener (event : CustomEvent) : Exec unit :=
  v <- lift (path (detail event) ["pointerManager"; "activePointerInput"]) ;;
  effect (ConsoleLog v) ;;;
  onPan event ;;;
  showOutput event.

(** The [pointerup] option given to the PointerListener:
    [function (event, pointerListener)]. *)
Definition pointerup_hook (pointerListener : Value) : Exec unit :=
  hasPointersOnSurface <-
    lift (path pointerListener ["pointerManager"; "hasPointersOnSurface"]) ;;
  onSurface <- lift (call hasPointersOnSurface) ;;
  none <- lift (loose_eq_boolean onSurface false) ;;
  tap <- read TAP_ACTIVE ;;
  press <- read PRESS_ACTIVE ;;
  if none && negb tap && negb press then resetElementTransform else ret tt.

End Page.

End GesturesTest.

(** ** Instances for the examples *)

Module Examples.
Import JS Index.

(** Modelled from the spec: the Contact class ("./contact", not among the
    sources).  A mapping from pointer id to the first, the previous and
    the current sample of that pointer, an [isActive] flag and the start
    time.  [addPointer] does nothing for an id that is present;
    [updatePointer] overwrites the current sample of a known id, keeps
    the prior one as previous and does nothing for an unknown id;
    [removePointer] removes the id, and the contact becomes inactive
    with its last id; [cancel] clears all pointers. *)
Record PointerInput : Set := {
  first_sample : PointerEvent;
  previous_sample : PointerEvent;
  current_sample : PointerEvent
}.

Record SpecContact : Type := {
  pointerInputs : gmap Z PointerInput;
  contact_isActive : bool;
  startTime : Z
}.

Definition SpecContact_new (sample : PointerEvent) : SpecContact :=
  {| pointerInputs :=
       {[ pointerId sample :=
            {| first_sample := sample; previous_sample := sample;
               current_sample := sample |} ]};
     contact_isActive := true;
     startTime := timeStamp sample |}.

Definition SpecContact_addPointer (c : SpecContact) (sample : PointerEvent) : SpecContact :=
  match pointerInputs c !! pointerId sample with
  | Some _ => c
  | None =>
      {| pointerInputs :=
           <[ pointerId sample :=
                {| first_sample := sample; previous_sample := sample;
                   current_sample := sample |} ]> (pointerInputs c);
         contact_isActive := true;
         startTime := startTime c |}
  end.

Definition SpecContact_updatePointer (c : SpecContact) (sample : PointerEvent) : SpecContact :=
  match pointerInputs c !! pointerId sample with
  | Some input =>
      {| pointerInputs :=
           <[ pointerId sample :=
                {| first_sample := first_sample input;
                   previous_sample := current_sample input;
                   current_sample := sample |} ]> (pointerInputs c);
         contact_isActive := contact_isActive c;
         startTime := startTime c |}
  | None => c
  end.

Definition SpecContact_removePointer (c : SpecContact) (sample : PointerEvent) : SpecContact :=
  let remaining := delete (pointerId sample) (pointerInputs c) in
  {| pointerInputs := remaining;
     contact_isActive := bool_decide (remaining ≠ ∅);
     startTime := startTime c |}.

Definition SpecContact_cancel (c : SpecContact) (sample : PointerEvent) : SpecContact :=
  {| pointerInputs := ∅; contact_isActive := false; startTime := startTime c |}.

(** A gesture instance of the kind the [supportedGestures] option takes
    as it is: it counts the calls of its two methods and publishes one
    event, its name, each time it evaluates an active contact. *)
Record Recorder : Set := {
  eventBaseName : string;
  recognize_calls : nat;
  onTouchMove_calls : nat
}.

Definition Recorder_recognize (r : Recorder) (c : option SpecContact)
  : Recorder * list string :=
  ({| eventBaseName := eventBaseName r; recognize_calls := S (recognize_calls r);
      onTouchMove_calls := onTouchMove_calls r |},
   match c with
   | Some c => if contact_isActive c then [eventBaseName r] else []
   | None => []
   end).

Definition Recorder_onTouchMove (r : Recorder) (event : TouchEvent) : Recorder :=
  {| eventBaseName := eventBaseName r; recognize_calls := recognize_calls r;
     onTouchMove_calls := S (onTouchMove_calls r) |}.

Definition Recorder_new (c : GestureClass) (domElement : string) : Recorder :=
  {| eventBaseName := GestureClass_name c; recognize_calls := 0;
     onTouchMove_calls := 0 |}.

#[export] Instance example_imports : Imports := {|
  DomElement := string;
  Contact := SpecContact;
  new_Contact := SpecContact_new;
  isActive := contact_isActive;
  addPointer := SpecContact_addPointer;
  onPointerMove := SpecContact_updatePointer;
  onPointerUp := SpecContact_removePointer;
  onPointerLeave := SpecContact_removePointer;
  onPointerCancel := SpecContact_cancel;
  Gesture := Recorder;
  GestureEvent := string;
  new_Gesture := Recorder_new;
  recognize := Recorder_recognize;
  onTouchMove := Recorder_onTouchMove
|}.

(** The element, two pointer samples with different ids and a raw
    touch-move. *)
Definition rectangle : string := "rectangle".

Definition sample (id x y time : Z) : PointerEvent :=
  {| pointerId := id; clientX := x; clientY := y; timeStamp := time |}.

Definition touch (time : Z) : TouchEvent :=
  {| changedTouches := [(0, 12, 10)%Z]; touchTimeStamp := time |}.

(** A gesture instance given to the listener as an object. *)
Definition pan_recorder : Recorder :=
  {| eventBaseName := "pan"; recognize_calls := 0; onTouchMove_calls := 0 |}.

(** [{ supportedGestures : gestures, pointermove : function ... }] *)
Definition options_with (gestures : list JSValue) : Options :=
  {| opt_supportedGestures := Some gestures; opt_handleTouchEvents := None;
     opt_pointerdown := false; opt_pointermove := true;
     opt_pointerup := false; opt_pointercancel := false |}.

(** [{ supportedGestures : [pan_recorder], pointermove : function ... }] *)
Definition pan_options : Options := options_with [JSObject pan_recorder].

(** The listener the constructor makes of [options_with], with [contact]
    set. *)
Definition listener_with (gestures : list (option Recorder)) (c : option SpecContact)
  : PointerListener :=
  {| DEBUG := false;
     options :=
       {| supportedGestures := gestures; handleTouchEvents := true;
          pointerdown_hook := false; pointermove_hook := true;
          pointerup_hook := false; pointercancel_hook := false |};
     domElement := rectangle;
     contact := c;
     listeners := ["pointerdown"; "pointermove"; "pointerup"; "pointerleave";
                   "pointercancel"; "touchmove"] |}.

(** StringToNumber on the empty string and on decimal integers with an
    optional sign; other numeric notations do not occur in the
    examples. *)
Fixpoint decimal (digits : string) (value : Z) : option Z :=
  match digits with
  | EmptyString => Some value
  | String.String c digits =>
      let d := (Z.of_nat (Ascii.nat_of_ascii c) - 48)%Z in
      if decide (0 <= d <= 9)%Z then decimal digits (10 * value + d)%Z else None
  end.

Definition decimal_integer (s : string) : option Z :=
  match s with
  | EmptyString => Some 0%Z
  | String.String "-"%char (String.String c digits) =>
      Z.opp <$> decimal (String.String c digits) 0
  | String.String "+"%char (String.String c digits) =>
      decimal (String.String c digits) 0
  | _ => decimal s 0
  end.

#[export] Instance example_builtins : GesturesTest.Builtins := {|
  GesturesTest.StringToNumber := decimal_integer;
  GesturesTest.NumberToString := pretty
|}.

(** The page: the elements test.js writes to, nothing written yet. *)
Definition page : GesturesTest.Page :=
  {| GesturesTest.rectangle_className := "";
     GesturesTest.transform := GesturesTest.initial_transform;
     GesturesTest.ticking := false;
     GesturesTest.TAP_ACTIVE := false;
     GesturesTest.PRESS_ACTIVE := false;
     GesturesTest.document :=
       list_to_map
         ((fun id => (id, "")) <$>
            ["pan-output"; "swipe-output";
             "deltaX-global"; "deltaY-global"; "direction-global";
             "deltaX-live"; "deltaY-live"; "direction-live"]) |}.

Definition object (props : list (string * GesturesTest.Value)) : GesturesTest.Value :=
  GesturesTest.Object (list_to_map props).

(** [{ deltaX, deltaY, direction }] *)
Definition motion (deltaX deltaY : Z) (direction : string) : GesturesTest.Value :=
  object [("deltaX", GesturesTest.Number deltaX);
          ("deltaY", GesturesTest.Number deltaY);
          ("direction", GesturesTest.String direction)].

(** A payload with the fields test.js reads. *)
Definition detail_of_test : GesturesTest.Value :=
  object
    [("global", motion 60 0 "right");
     ("live", motion 4 0 "right");
     ("recognizer",
       object [("eventBaseName", GesturesTest.String "pan");
               ("isSwipe", GesturesTest.Boolean false)]);
     ("pointerManager", object [("activePointerInput", object [])])].

(** A pointer listener object with a [pointerManager]. *)
Definition listener_of_test : GesturesTest.Value :=
  object
    [("pointerManager",
       object [("hasPointersOnSurface",
                 GesturesTest.Function "function () { [native code] }"
                   (GesturesTest.Boolean false))])].

End Examples.

(** ** index.ts: what a trace shows of captures and hooks *)

Module IndexTraces.
Import JS Index.

Section Traces.
Context `{Imports}.

(** The calls of [setPointerCapture] and [releasePointerCapture] in a
    trace. *)
Fixpoint captures (trace : list Effect) : list Effect :=
  match trace with
  | [] => []
  | SetPointerCapture id :: trace => SetPointerCapture id :: captures trace
  | ReleasePointerCapture id :: trace => ReleasePointerCapture id :: captures trace
  | _ :: trace => captures trace
  end.

(** The calls of the hooks in a trace. *)
Fixpoint hook_calls (trace : list Effect) : list (Hook * PointerEvent) :=
  match trace with
  | [] => []
  | CallHook h event :: trace => (h, event) :: hook_calls trace
  | _ :: trace => hook_calls trace
  end.

(** The samples of the pointer phases other than down. *)
Definition after_down (s : Sample) : bool :=
  match s with
  | Move _ | Up _ | Leave _ | Cancel _ => true
  | Down _ | RawTouchMove _ => false
  end.

(** The first statement of the handlers of "pointerdown", "pointerup"
    and "pointercancel". *)
Definition capture_of (s : Sample) : list Effect :=
  match s with
  | Down event => [SetPointerCapture (pointerId event)]
  | Up event | Cancel event => [ReleasePointerCapture (pointerId event)]
  | Move _ | Leave _ | RawTouchMove _ => []
  end.

(** The hook a handler reaches: the one of its phase, when the option
    is there and the handler gets as far. *)
Definition hook_of (s : Sample) (self : PointerListener) : option (Hook * PointerEvent) :=
  let o := options self in
  match s with
  | Down event =>
      if pointerdown_hook o then Some (hook_pointerdown, event) else None
  | Move event =>
      if has_active_contact (contact self) && pointermove_hook o
      then Some (hook_pointermove, event) else None
  | Up event =>
      if has_active_contact (contact self) && pointerup_hook o
      then Some (hook_pointerup, event) else None
  | Cancel event =>
      if bool_decide (is_Some (contact self)) && pointercancel_hook o
      then Some (hook_pointercancel, event) else None
  | Leave _ | RawTouchMove _ => None
  end.

(** What a listener without a Contact makes of a sample of a phase
    other than down. *)
Definition outcome_without_contact (s : Sample) : list Effect * Completion unit :=
  match s with
  | Cancel event =>
      ([ReleasePointerCapture (pointerId event)],
       Throw (TypeError "Cannot read properties of null (reading 'onPointerCancel')"))
  | Up event => ([ReleasePointerCapture (pointerId event)], Normal tt)
  | _ => ([], Normal tt)
  end.

End Traces.

End IndexTraces.

(** ** tests/gestures/test.js: the other functions and listeners *)

Module TestPage.

(** The statement [m] keeps the property [Inv] of the state, also when
    it throws. *)
Definition keeps {State Effect A : Type} (Inv : State -> Prop)
    (m : JS.Exec State Effect A) : Prop :=
  forall s, Inv s -> Inv (m s).1.1.

(** The statement [m] does not tell apart two states that [R] relates:
    it has the same effects and the same completion on both, and
    leaves them related. *)
Definition respects {State Effect A : Type} (R : State -> State -> Prop)
    (m : JS.Exec State Effect A) : Prop :=
  forall s1 s2, R s1 s2 ->
    R (m s1).1.1 (m s2).1.1 /\ (m s1).1.2 = (m s2).1.2 /\ (m s1).2 = (m s2).2.
Import JS GesturesTest.

Section PageFunctions.
Context `{Builtins}.
Local Open Scope exec_scope.

(** [transform] as the object that [console.log(transform)] shows. *)
Definition transform_value (t : Transform) : Value :=
  Object (list_to_map
    [("translate",
       Object (list_to_map [("x", translate_x t); ("y", translate_y t)]));
     ("scale",
       Object (list_to_map [("x", scale_x t); ("y", scale_y t); ("z", scale_z t)]));
     ("rotate",
       Object (list_to_map
         [("x", rotate_x t); ("y", rotate_y t); ("z", rotate_z t);
          ("angle", rotate_angle t)]))]).

(** The event as the object that [console.log(event)] shows. *)
Definition event_value (event : CustomEvent) : Value :=
  Object (list_to_map [("type", String (type event)); ("detail", detail event)]).

Definition set_TAP_ACTIVE (b : bool) : Exec unit :=
  write (fun page =>
    {| rectangle_className := rectangle_className page;
       transform := transform page; ticking := ticking page;
       TAP_ACTIVE := b; PRESS_ACTIVE := PRESS_ACTIVE page;
       document := document page |}).

Definition set_PRESS_ACTIVE (b : bool) : Exec unit :=
  write (fun page =>
    {| rectangle_className := rectangle_className page;
       transform := transform page; ticking := ticking page;
       TAP_ACTIVE := TAP_ACTIVE page; PRESS_ACTIVE := b;
       document := document page |}).

(** [function clearOutput(event)] *)
Definition clearOutput (event : CustomEvent) : Exec unit :=
  name <- lift (path (detail event) ["recognizer"; "eventBaseName"]) ;;
  elementId <- lift (concat name "-output") ;;
  set_textContent elementId (String "") ;;;
  set_textContent "swipe-output" (String "").

(** [function onTwoFingerPan(event)] *)
Definition onTwoFingerPan (event : CustomEvent) : Exec unit :=
  set_className "" ;;;
  deltaX <- lift (path (detail event) ["global"; "deltaX"]) ;;
  deltaY <- lift (path (detail event) ["global"; "deltaY"]) ;;
  t <- read transform ;;
  set_transform
    {| translate_x := deltaX; translate_y := deltaY;
       scale_x := scale_x t; scale_y := scale_y t; scale_z := scale_z t;
       rotate_x := rotate_x t; rotate_y := rotate_y t; rotate_z := rotate_z t;
       rotate_angle := rotate_angle t |} ;;;
  requestElementUpdate.

(** [var transformString = transformValues.join(" ")] of
    [requestElementUpdate], for the transform [t]. *)
Definition transformString (t : Transform) : Completion string :=
  match interpolate ""
          [inl "translate3d("; inr (translate_x t); inl "px, ";
           inr (translate_y t); inl "px, 0)"],
        interpolate ""
          [inl "scale3d("; inr (scale_x t); inl ", "; inr (scale_y t); inl ", ";
           inr (scale_z t); inl ")"],
        interpolate ""
          [inl "rotate3d("; inr (rotate_x t); inl ","; inr (rotate_y t); inl ",";
           inr (rotate_z t); inl ","; inr (rotate_angle t); inl "deg)"]
  with
  | Normal translate3d, Normal scale3d, Normal rotate3d =>
      Normal (translate3d +:+ " " +:+ scale3d +:+ " " +:+ rotate3d)
  | Throw e, _, _ => Throw e
  | Normal _, Throw e, _ => Throw e
  | Normal _, Normal _, Throw e => Throw e
  end.

(** The page with [ticking] set. *)
Definition with_ticking (b : bool) (page : Page) : Page :=
  {| rectangle_className := rectangle_className page;
     transform := transform page; ticking := b;
     TAP_ACTIVE := TAP_ACTIVE page; PRESS_ACTIVE := PRESS_ACTIVE page;
     document := document page |}.

(** The page with another document. *)
Definition with_document (d : gmap string string) (page : Page) : Page :=
  {| rectangle_className := rectangle_className page;
     transform := transform page; ticking := ticking page;
     TAP_ACTIVE := TAP_ACTIVE page; PRESS_ACTIVE := PRESS_ACTIVE page;
     document := d |}.

(** The page with another class of the rectangle. *)
Definition with_className (name : string) (page : Page) : Page :=
  {| rectangle_className := name;
     transform := transform page; ticking := ticking page;
     TAP_ACTIVE := TAP_ACTIVE page; PRESS_ACTIVE := PRESS_ACTIVE page;
     document := document page |}.

(** [after] is [before] except for the text of the elements [ids]; no
    element is created or removed. *)
Definition writes_only (ids : list string) (before after : Page) : Prop :=
  after = with_document (document after) before /\
  dom (document after) = dom (document before) /\
  forall id, id ∉ ids -> document after !! id = document before !! id.

(** [relativeDistanceChange != null] *)
Definition not_null (v : Value) : bool :=
  match v with
  | Undefined | Null => false
  | _ => true
  end.

(** [function onPinch(event)] *)
Definition onPinch (event : CustomEvent) : Exec unit :=
  set_className "" ;;;
  relativeDistanceChange <- lift (path (detail event) ["global"; "scale"]) ;;
  if not_null relativeDistanceChange then
    t <- read transform ;;
    set_transform
      {| translate_x := translate_x t; translate_y := translate_y t;
         scale_x := relativeDistanceChange; scale_y := relativeDistanceChange;
         scale_z := Number 1;
         rotate_x := rotate_x t; rotate_y := rotate_y t; rotate_z := rotate_z t;
         rotate_angle := rotate_angle t |} ;;;
    t <- read transform ;;
    effect (ConsoleLog (transform_value t)) ;;;
    requestElementUpdate
  else ret tt.

(** [function onRotation(event)] *)
Definition onRotation (event : CustomEvent) : Exec unit :=
  set_className "" ;;;
  angle <- lift (path (detail event) ["global"; "rotation"]) ;;
  t <- read transform ;;
  set_transform
    {| translate_x := translate_x t; translate_y := translate_y t;
       scale_x := scale_x t; scale_y := scale_y t; scale_z := scale_z t;
       rotate_x := Number 0; rotate_y := Number 0; rotate_z := Number 1;
       rotate_angle := angle |} ;;;
  t <- read transform ;;
  effect (ConsoleLog (transform_value t)) ;;;
  requestElementUpdate.

(** The element [showOutput] writes the state of the gesture to: the
    [elementId] of its first lines. *)
Definition output_element (event : CustomEvent) : Completion string :=
  match get (detail event) "recognizer" with
  | Throw e => Throw e
  | Normal recognizer =>
      match path (detail event) ["recognizer"; "eventBaseName"] with
      | Throw e => Throw e
      | Normal name =>
          match concat name "-output" with
          | Throw e => Throw e
          | Normal elementId =>
              match is_swipe recognizer with
              | Throw e => Throw e
              | Normal swipe => Normal (if swipe : bool then "swipe-output" else elementId)
              end
          end
      end
  end.

(** The six elements [showOutput] writes the motion to. *)
Definition motion_elements : list string :=
  ["deltaX-global"; "deltaY-global"; "direction-global";
   "deltaX-live"; "deltaY-live"; "direction-live"].

End PageFunctions.

(** The globals of test.js that [GesturesTest.Page] leaves out, and the
    [transform] style of the rectangle, set by the animation frames. *)
Record Session : Type := {
  the_page : Page;
  PINCHACTIVE : bool;
  ROTATIONACTIVE : bool;
  TWOFINGERPANACTIVE : bool;
  style_transform : option string
}.

(** The functions test.js passes to [setTimeout]. *)
Inductive Timer : Type :=
| timer_TAP_ACTIVE
| timer_PRESS_ACTIVE
| timer_clearOutput (event : CustomEvent)
| timer_resetElementTransform.

Inductive SessionOutput : Type :=
| OnPage (o : Output)
| SetTimeout (callback : Timer) (delay : Z).

Definition SessionExec : Type -> Type := JS.Exec Session SessionOutput.

Section Listeners.
Context `{Builtins}.
Local Open Scope exec_scope.

Definition with_page (p : Page) (s : Session) : Session :=
  {| the_page := p; PINCHACTIVE := PINCHACTIVE s; ROTATIONACTIVE := ROTATIONACTIVE s;
     TWOFINGERPANACTIVE := TWOFINGERPANACTIVE s; style_transform := style_transform s |}.

(** A statement on the page, as a statement of the session. *)
Definition on_page {A} (m : GesturesTest.Exec A) : SessionExec A :=
  fun s =>
    match m (the_page s) with
    | (p, t, r) => (with_page p s, OnPage <$> t, r)
    end.

Definition set_PINCHACTIVE (b : bool) : SessionExec unit :=
  write (fun s =>
    {| the_page := the_page s; PINCHACTIVE := b; ROTATIONACTIVE := ROTATIONACTIVE s;
       TWOFINGERPANACTIVE := TWOFINGERPANACTIVE s; style_transform := style_transform s |}).

Definition set_ROTATIONACTIVE (b : bool) : SessionExec unit :=
  write (fun s =>
    {| the_page := the_page s; PINCHACTIVE := PINCHACTIVE s; ROTATIONACTIVE := b;
       TWOFINGERPANACTIVE := TWOFINGERPANACTIVE s; style_transform := style_transform s |}).

Definition set_TWOFINGERPANACTIVE (b : bool) : SessionExec unit :=
  write (fun s =>
    {| the_page := the_page s; PINCHACTIVE := PINCHACTIVE s; ROTATIONACTIVE := ROTATIONACTIVE s;
       TWOFINGERPANACTIVE := b; style_transform := style_transform s |}).

(** [function onEnd(event)] *)
Definition onEnd (event : CustomEvent) : SessionExec unit :=
  twoFingerPan <- read TWOFINGERPANACTIVE ;;
  rotation <- read ROTATIONACTIVE ;;
  if negb twoFingerPan && negb rotation then on_page resetElementTransform
  else ret tt.

(** [function onTap(event)] *)
Definition onTap (event : CustomEvent) : SessionExec unit :=
  on_page (set_className "animate") ;;;
  on_page (t <- read transform ;;
           set_transform
             {| translate_x := translate_x t; translate_y := translate_y t;
                scale_x := scale_x t; scale_y := scale_y t; scale_z := scale_z t;
                rotate_x := Number 1; rotate_y := Number 0; rotate_z := Number 0;
                rotate_angle := Number 35 |}) ;;;
  effect (SetTimeout timer_resetElementTransform 300) ;;;
  on_page requestElementUpdate.

(** [function onPress(event)] *)
Definition onPress (event : CustomEvent) : SessionExec unit := ret tt.

(** The listeners [loadContact] adds to the rectangle, by event type. *)
Definition listener (type : string) : option (CustomEvent -> SessionExec unit) :=
  if decide (type = "pan") then Some (fun event =>
    on_page (pan_listener event))
  else if decide (type = "panend") then Some (fun event =>
    on_page (showOutput event) ;;;
    effect (SetTimeout (timer_clearOutput event) 1000) ;;;
    onEnd event)
  else if decide (type = "swipe") then Some (fun event =>
    on_page (onPan event) ;;;
    on_page (showOutput event) ;;;
    effect (SetTimeout (timer_clearOutput event) 1000))
  else if decide (type = "tap") then Some (fun event =>
    on_page (set_TAP_ACTIVE true) ;;;
    onTap event ;;;
    on_page (showOutput event) ;;;
    effect (SetTimeout timer_TAP_ACTIVE 200) ;;;
    effect (SetTimeout (timer_clearOutput event) 1000))
  else if decide (type = "press") then Some (fun event =>
    on_page (set_PRESS_ACTIVE true) ;;;
    onPress event ;;;
    on_page (showOutput event) ;;;
    effect (SetTimeout timer_PRESS_ACTIVE 200) ;;;
    effect (SetTimeout (timer_clearOutput event) 1000))
  else if decide (type = "pinchstart") then Some (fun event =>
    set_PINCHACTIVE true)
  else if decide (type = "pinch") then Some (fun event =>
    effect (OnPage (ConsoleLog (String "PINCH event data"))) ;;;
    on_page (v <- lift (path (detail event) ["pointerManager"; "activePointerInput"]) ;;
             effect (ConsoleLog v)) ;;;
    effect (OnPage (ConsoleLog (event_value event))) ;;;
    on_page (onPinch event) ;;;
    on_page (showOutput event))
  else if decide (type = "pinchend") then Some (fun event =>
    set_PINCHACTIVE false ;;;
    onEnd event ;;;
    on_page (showOutput event) ;;;
    effect (SetTimeout (timer_clearOutput event) 1000))
  else if decide (type = "rotatestart") then Some (fun event =>
    set_ROTATIONACTIVE true)
  else if decide (type = "rotate") then Some (fun event =>
    on_page (onRotation event) ;;;
    on_page (showOutput event))
  else if decide (type = "rotateend") then Some (fun event =>
    set_ROTATIONACTIVE false ;;;
    onEnd event ;;;
    on_page (showOutput event) ;;;
    effect (SetTimeout (timer_clearOutput event) 1000))
  else if decide (type = "twofingerpanstart") then Some (fun event =>
    set_TWOFINGERPANACTIVE true ;;;
    on_page (showOutput event))
  else if decide (type = "twofingerpan") then Some (fun event =>
    on_page (onTwoFingerPan event) ;;;
    on_page (showOutput event))
  else if decide (type = "twofingerpanend") then Some (fun event =>
    set_TWOFINGERPANACTIVE true ;;;
    onEnd event ;;;
    on_page (showOutput event) ;;;
    effect (SetTimeout (timer_clearOutput event) 1000))
  else None.

(** The rectangle dispatches an event to the listener of its type. *)
Definition on_event (event : CustomEvent) : SessionExec unit :=
  match listener (type event) with
  | Some handle => handle event
  | None => ret tt
  end.

(** A timer fires. *)
Definition fire (t : Timer) : SessionExec unit :=
  match t with
  | timer_TAP_ACTIVE => on_page (set_TAP_ACTIVE false)
  | timer_PRESS_ACTIVE => on_page (set_PRESS_ACTIVE false)
  | timer_clearOutput event => on_page (clearOutput event)
  | timer_resetElementTransform => on_page resetElementTransform
  end.

(** The callback of [requestAnimationFrame] runs: the style is set and
    [ticking] is cleared. *)
Definition animation_frame (transformString : string) : SessionExec unit :=
  write (fun s =>
    {| the_page := the_page s; PINCHACTIVE := PINCHACTIVE s; ROTATIONACTIVE := ROTATIONACTIVE s;
       TWOFINGERPANACTIVE := TWOFINGERPANACTIVE s;
       style_transform := Some transformString |}) ;;;
  on_page (set_ticking false).

(** What happens on the page, one thing at a time. *)
Inductive Step : Type :=
| OnEvent (event : CustomEvent)
| OnTimeout (t : Timer)
| OnFrame (transformString : string)
| OnPointerUp (pointerListener : Value).

Definition step (x : Step) : SessionExec unit :=
  match x with
  | OnEvent event => on_event event
  | OnTimeout t => fire t
  | OnFrame transformString => animation_frame transformString
  | OnPointerUp pointerListener => on_page (pointerup_hook pointerListener)
  end.

(** The timers that clear [TAP_ACTIVE] and [PRESS_ACTIVE]. *)
Definition clears_TAP_ACTIVE (x : Step) : bool :=
  match x with
  | OnTimeout timer_TAP_ACTIVE => true
  | _ => false
  end.

Definition clears_PRESS_ACTIVE (x : Step) : bool :=
  match x with
  | OnTimeout timer_PRESS_ACTIVE => true
  | _ => false
  end.

(** Steps one after the other; a throw ends one step, not the page. *)
Fixpoint run (steps : list Step) (s : Session) : Session :=
  match steps with
  | [] => s
  | x :: steps => run steps (step x s).1.1
  end.

(** What the steps put out and how they complete, step by step. *)
Fixpoint log (steps : list Step) (s : Session)
  : list (list SessionOutput * Completion unit) :=
  match steps with
  | [] => []
  | x :: steps =>
      match step x s with
      | (s', out, r) => (out, r) :: log steps s'
      end
  end.

(** Two sessions that differ in [PINCHACTIVE] at most. *)
Definition same_but_PINCHACTIVE (s1 s2 : Session) : Prop :=
  the_page s1 = the_page s2 /\
  ROTATIONACTIVE s1 = ROTATIONACTIVE s2 /\
  TWOFINGERPANACTIVE s1 = TWOFINGERPANACTIVE s2 /\
  style_transform s1 = style_transform s2.

End Listeners.

End TestPage.

(** ** Scenarios: the listener and the page on concrete input *)

Module Scenarios.
Import JS Index Examples.

(** Samples that come before any pointerdown. *)
Definition early_samples : list Sample :=
  [Move (sample 1 12 10 5); Leave (sample 1 12 10 6); Up (sample 1 12 10 7)].

(** [{ supportedGestures : [pan_recorder, Tap, 7, Pan], ... }] *)
Definition options_with_number : Options :=
  options_with [JSObject pan_recorder; JSGestureClass Tap; JSNumber 7; JSGestureClass Pan].

(** [{ supportedGestures : [pan_recorder, Tap, null], ... }] *)
Definition mixed_gestures : list JSValue :=
  [JSObject pan_recorder; JSGestureClass Tap; JSNull].

(** [{ handleTouchEvents : false }] *)
Definition options_without_touch : Options :=
  {| opt_supportedGestures := None; opt_handleTouchEvents := Some false;
     opt_pointerdown := false; opt_pointermove := false;
     opt_pointerup := false; opt_pointercancel := false |}.

(** A listener whose second gesture is [null], with an active contact. *)
Definition listener_with_null : PointerListener :=
  listener_with [Some pan_recorder; None; Some pan_recorder]
    (Some (SpecContact_new (sample 1 10 10 0))).

(** A listener with one gesture and an active contact. *)
Definition listener_in_contact : PointerListener :=
  listener_with [Some pan_recorder] (Some (SpecContact_new (sample 1 10 10 0))).

(** An event of the given type with the payload test.js reads. *)
Definition event_of (type : string) : GesturesTest.CustomEvent :=
  {| GesturesTest.type := type; GesturesTest.detail := detail_of_test |}.

(** A pinch to twice the distance. *)
Definition pinch_event : GesturesTest.CustomEvent :=
  {| GesturesTest.type := "pinch";
     GesturesTest.detail :=
       object [("global", object [("scale", GesturesTest.Number 2)])] |}.

(** The page as test.js finds it. *)
Definition session : TestPage.Session :=
  {| TestPage.the_page := page; TestPage.PINCHACTIVE := false;
     TestPage.ROTATIONACTIVE := false; TestPage.TWOFINGERPANACTIVE := false;
     TestPage.style_transform := None |}.

(** A pan, its frame and the end of the pan. *)
Definition pan_steps : list TestPage.Step :=
  [TestPage.OnEvent (event_of "pan");
   TestPage.OnFrame "translate3d(60px, 0px, 0) scale3d(1, 1, 1) rotate3d(0,0,0,0deg)";
   TestPage.OnEvent (event_of "panend")].

(** The page in the middle of a pinch. *)
Definition session_in_pinch : TestPage.Session :=
  {| TestPage.the_page := page; TestPage.PINCHACTIVE := true;
     TestPage.ROTATIONACTIVE := false; TestPage.TWOFINGERPANACTIVE := false;
     TestPage.style_transform := None |}.

(** The end of a pinch, a tap and a pointerup. *)
Definition pinch_steps : list TestPage.Step :=
  [TestPage.OnEvent (event_of "pinchend");
   TestPage.OnEvent (event_of "tap");
   TestPage.OnTimeout TestPage.timer_TAP_ACTIVE;
   TestPage.OnPointerUp listener_of_test].

End Scenarios.

(** * Properties *)

(** ** The constants *)

Section InputConstsFacts.
Import InputConsts.

Lemma GestureState_members_complete (s : GestureState) : s ∈ GestureState_members.
Proof. destruct s; apply (bool_decide_unpack _); by vm_compute. Qed.

(** C1, as stated, fails: of the seven state names of the
    specification, "Began" (like "Changed", "Ended", "Cancelled" and
    "Failed") names no member of the [GestureState] enumeration, which
    has two members. *)
Lemma GestureState_lacks_Began :
  ("Began" ∈ spec_state_names) /\
  ("Began" ∉ GestureState_name <$> GestureState_members) /\
  length GestureState_members = 2 /\ length spec_state_names = 7.
Proof.
  split; [apply (bool_decide_unpack _); by vm_compute|].
  split; [|done].
  cbn. intros Hin. repeat (apply elem_of_cons in Hin as [Hin|Hin]; [discriminate|]).
  by apply elem_of_nil in Hin.
Qed.

(** C1, amended: the [GestureState] enumeration comprises exactly the
    two states [Possible] ("possible") and [Blocked] ("blocked"), with
    [Possible] the initial state, so that every value of the type is one
    of these two. *)
Theorem GestureState_two_states :
  (forall s : GestureState, s = Possible \/ s = Blocked) /\
  Possible <> Blocked /\
  GestureState_name <$> GestureState_members = ["Possible"; "Blocked"] /\
  GestureState_value <$> GestureState_members = ["possible"; "blocked"] /\
  initial_state = Possible.
Proof.
  split; [intros []; auto|]. split; [discriminate|]. done.
Qed.

Lemma Bucket_members_complete (b : Bucket) : b ∈ Bucket_members.
Proof. destruct b; apply (bool_decide_unpack _); by vm_compute. Qed.

Lemma Bucket_constant_in (b : Bucket) :
  Bucket_constant b ∈ DIRECTION_NONE :: DIRECTION_ALL.
Proof. destruct b; apply (bool_decide_unpack _); by vm_compute. Qed.

Lemma Bucket_constant_none (b : Bucket) :
  Bucket_constant b = DIRECTION_NONE -> b = bucket_none.
Proof. by destruct b. Qed.

Lemma bucket_none_zero (tie : Z -> Z -> bool) (down : bool) (deltaX deltaY : Z) :
  bucket tie down deltaX deltaY = bucket_none <-> (deltaX = 0 /\ deltaY = 0)%Z.
Proof.
  unfold bucket. case_decide as Hzero; [done|]. split; [|done].
  destruct (horizontal_dominant _ _ _); [by case_decide|].
  by destruct (bool_decide _), down.
Qed.



End InputConstsFacts.

(** ** The pointer listener *)

Import JS Index.

Lemma insert_middle {A} (l1 l2 : list A) (x y : A) :
  <[length l1 := y]> (l1 ++ x :: l2) = l1 ++ y :: l2.
Proof. by rewrite <- (Nat.add_0_r (length l1)), insert_app_r. Qed.

Create Rewrite HintDb exec.

Section ExecFacts.
Context {State Effect : Type}.
Implicit Types (s : State) (t : list Effect).

Lemma after_nil {A} (x : State * list Effect * Completion A) : after [] x = x.
Proof. by destruct x as [[? ?] ?]. Qed.

Lemma after_after {A} t t' (x : State * list Effect * Completion A) :
  after t (after t' x) = after (t ++ t') x.
Proof. destruct x as [[? ?] ?]. cbn. by rewrite app_assoc. Qed.

Lemma after_outcome {A} t s t' (r : Completion A) :
  after t (s, t', r) = (s, t ++ t', r).
Proof. done. Qed.

Lemma bind_ret {A B} (a : A) (k : A -> JS.Exec State Effect B) s :
  bind (ret a) k s = k a s.
Proof. unfold bind, ret. apply after_nil. Qed.

Lemma bind_read {A B} (f : State -> A) (k : A -> JS.Exec State Effect B) s :
  bind (read f) k s = k (f s) s.
Proof. unfold bind, read. apply after_nil. Qed.

Lemma bind_write {B} (f : State -> State) (k : unit -> JS.Exec State Effect B) s :
  bind (write f) k s = k tt (f s).
Proof. unfold bind, write. apply after_nil. Qed.

Lemma bind_effect {B} (e : Effect) (k : unit -> JS.Exec State Effect B) s :
  bind (effect e) k s = after [e] (k tt s).
Proof. done. Qed.

Lemma bind_throw {A B} (e : JSError) (k : A -> JS.Exec State Effect B) s :
  bind (throw e) k s = (s, [], Throw e).
Proof. done. Qed.

Lemma bind_lift_Normal {A B} (a : A) (k : A -> JS.Exec State Effect B) s :
  bind (lift (Normal a)) k s = k a s.
Proof. unfold bind, lift. apply after_nil. Qed.

Lemma bind_lift_Throw {A B} (e : JSError) (k : A -> JS.Exec State Effect B) s :
  bind (lift (Throw e)) k s = (s, [], Throw e).
Proof. done. Qed.

Lemma bind_outcome {A B} (m : JS.Exec State Effect A) (k : A -> JS.Exec State Effect B) s s1 t1 a :
  m s = (s1, t1, Normal a) -> bind m k s = after t1 (k a s1).
Proof. intros Hm. unfold bind. by rewrite Hm. Qed.

Lemma bind_assoc {A B C} (m : JS.Exec State Effect A) (k : A -> JS.Exec State Effect B)
    (k' : B -> JS.Exec State Effect C) s :
  bind (bind m k) k' s = bind m (fun a => bind (k a) k') s.
Proof.
  unfold bind. destruct (m s) as [[s1 t1] [a|e]]; [|done].
  destruct (k a s1) as [[s2 t2] [b|e]]; cbn; [|done].
  destruct (k' b s2) as [[s3 t3] r]. cbn. by rewrite app_assoc.
Qed.

Lemma effects_run (l : list Effect) (s : State) :
  effects l s = (s, l, Normal tt).
Proof.
  induction l as [|e l IH]; [done|].
  cbn [effects]. by rewrite bind_effect, IH.
Qed.

Lemma bind_effects {B} (l : list Effect) (k : unit -> JS.Exec State Effect B) s :
  bind (effects l) k s = after l (k tt s).
Proof. unfold bind. by rewrite effects_run. Qed.

Lemma bind_normal_inv {A B} (m : JS.Exec State Effect A) (k : A -> JS.Exec State Effect B)
    s s' t (b : B) :
  bind m k s = (s', t, Normal b) ->
  exists s1 t1 t2 a, m s = (s1, t1, Normal a) /\ k a s1 = (s', t2, Normal b) /\ t = t1 ++ t2.
Proof.
  unfold bind. destruct (m s) as [[s1 t1] [a|e]]; [|discriminate].
  destruct (k a s1) as [[s2 t2] r] eqn:Hk. cbn. intros [= -> <- ->].
  by exists s1, t1, t2, a.
Qed.

Lemma lift_normal_inv {A} (r : Completion A) s s' t (a : A) :
  lift (State := State) (Effect := Effect) r s = (s', t, Normal a) ->
  r = Normal a /\ s' = s /\ t = [].
Proof. unfold lift. by intros [= -> -> ->]. Qed.

End ExecFacts.

#[export] Hint Rewrite @bind_assoc @bind_ret @bind_read @bind_write @bind_effect
  @bind_throw @bind_effects @bind_lift_Normal @bind_lift_Throw @effects_run @after_nil
  @after_after @after_outcome : exec.

Section ListenerFacts.
Context `{Imports}.

Lemma set_gesture_with_gestures (g : nat) (x : Gesture) (self : PointerListener) :
  set_gesture g x self = with_gestures (<[g := Some x]> (supportedGestures (options self))) self.
Proof. done. Qed.

Lemma with_gestures_id (self : PointerListener) :
  with_gestures (supportedGestures (options self)) self = self.
Proof. by destruct self as [? [] ? ? ?]. Qed.

Lemma recognize_loop (todo : list (option Gesture)) :
  forall (done_ : list (option Gesture)) (self : PointerListener),
    supportedGestures (options self) = done_ ++ todo ->
    Forall is_Some todo ->
    for_loop (length done_) (length todo) recognize_at self =
      (with_gestures (done_ ++ recognized (contact self) todo) self,
       recognition (contact self) (length done_) todo, Normal tt).
Proof.
  induction todo as [|gesture todo IH]; intros done_ self Hgs Hall.
  - cbn. rewrite app_nil_r, <- (app_nil_r done_), <- Hgs. by rewrite with_gestures_id.
  - apply Forall_cons in Hall as [[x ->] Hall].
    cbn [for_loop length]. unfold recognize_at at 1.
    autorewrite with exec. rewrite Hgs, list_lookup_middle by done.
    autorewrite with exec.
    rewrite set_gesture_with_gestures, Hgs, insert_middle.
    specialize (IH (done_ ++ [Some (recognize x (contact self)).1])
                   (with_gestures (done_ ++ Some (recognize x (contact self)).1 :: todo) self)).
    rewrite length_app in IH. cbn [length] in IH. rewrite Nat.add_1_r in IH.
    rewrite IH; [|by rewrite <- app_assoc|done].
    cbn. by rewrite <- !app_assoc.
Qed.

#[local] Arguments call_hook : simpl never.
#[local] Arguments recognizeGestures : simpl never.
#[local] Arguments touchmove : simpl never.

Lemma recognizeGestures_run (self : PointerListener) :
  Forall is_Some (supportedGestures (options self)) ->
  recognizeGestures self =
    (with_gestures (recognized (contact self) (supportedGestures (options self))) self,
     recognition (contact self) 0 (supportedGestures (options self)), Normal tt).
Proof.
  intros Hall. unfold recognizeGestures. rewrite bind_read.
  by rewrite (recognize_loop _ [] self).
Qed.

Lemma evaluations_app (t1 t2 : list Effect) :
  evaluations (t1 ++ t2) = evaluations t1 ++ evaluations t2.
Proof.
  induction t1 as [|[] t1 IH]; cbn; by rewrite ?IH.
Qed.

Lemma contact_updates_app (t1 t2 : list Effect) :
  contact_updates (t1 ++ t2) = contact_updates t1 ++ contact_updates t2.
Proof.
  induction t1 as [|[] t1 IH]; cbn; by rewrite ?IH.
Qed.

Lemma evaluations_DispatchEvent (g : nat) (events : list GestureEvent) :
  evaluations (DispatchEvent g <$> events) = [].
Proof. by induction events. Qed.

Lemma contact_updates_DispatchEvent (g : nat) (events : list GestureEvent) :
  contact_updates (DispatchEvent g <$> events) = [].
Proof. by induction events. Qed.

Lemma evaluations_recognition (c : option Contact) (gestures : list (option Gesture)) :
  forall g : nat,
    Forall is_Some gestures ->
    evaluations (recognition c g gestures) = (fun i => (i, c)) <$> seq g (length gestures).
Proof.
  induction gestures as [|gesture gestures IH]; intros g Hall; [done|].
  apply Forall_cons in Hall as [[x ->] Hall].
  cbn. rewrite evaluations_app, evaluations_DispatchEvent. cbn. by rewrite IH.
Qed.

Lemma contact_updates_recognition (c : option Contact) (gestures : list (option Gesture)) :
  forall g : nat, contact_updates (recognition c g gestures) = [].
Proof.
  induction gestures as [|[x|] gestures IH]; intros g; [done| |]; cbn.
  - by rewrite contact_updates_app, contact_updates_DispatchEvent, IH.
  - apply IH.
Qed.

Lemma touchmove_loop (event : TouchEvent) (todo : list (option Gesture)) :
  forall (done_ : list (option Gesture)) (self : PointerListener),
    supportedGestures (options self) = done_ ++ todo ->
    Forall is_Some todo ->
    for_loop (length done_) (length todo) (touchmove_at event) self =
      (with_gestures (done_ ++ touched event todo) self,
       (fun g => TouchMove g event) <$> seq (length done_) (length todo), Normal tt).
Proof.
  induction todo as [|gesture todo IH]; intros done_ self Hgs Hall.
  - cbn. rewrite app_nil_r, <- (app_nil_r done_), <- Hgs. by rewrite with_gestures_id.
  - apply Forall_cons in Hall as [[x ->] Hall].
    cbn [for_loop length]. unfold touchmove_at at 1.
    autorewrite with exec. rewrite Hgs, list_lookup_middle by done.
    autorewrite with exec.
    rewrite set_gesture_with_gestures, Hgs, insert_middle.
    specialize (IH (done_ ++ [Some (onTouchMove x event)])
                   (with_gestures (done_ ++ Some (onTouchMove x event) :: todo) self)).
    rewrite length_app in IH. cbn [length] in IH. rewrite Nat.add_1_r in IH.
    rewrite IH; [|by rewrite <- app_assoc|done].
    cbn. by rewrite <- !app_assoc.
Qed.

Lemma touchmove_run (event : TouchEvent) (self : PointerListener) :
  Forall is_Some (supportedGestures (options self)) ->
  touchmove event self =
    (with_gestures (touched event (supportedGestures (options self))) self,
     (fun g => TouchMove g event) <$> seq 0 (length (supportedGestures (options self))),
     Normal tt).
Proof.
  intros Hall. unfold touchmove. rewrite bind_read.
  by rewrite (touchmove_loop event _ [] self).
Qed.

Lemma call_hook_run (h : Hook) (event : PointerEvent) (self : PointerListener) :
  call_hook h event self = (self, hook_trace h event self, Normal tt).
Proof.
  unfold call_hook, hook_trace. rewrite bind_read.
  by destruct (has_hook h (options self)).
Qed.

Lemma contact_call_run (m : ContactMethod) (event : PointerEvent)
    (self : PointerListener) (c : Contact) :
  contact self = Some c ->
  contact_call m event self =
    (set_contact (Some (ContactMethod_run m c event)) self, [ContactCall m event], Normal tt).
Proof.
  intros Hc. unfold contact_call. rewrite bind_read, Hc. by autorewrite with exec.
Qed.

Lemma contact_call_null (m : ContactMethod) (event : PointerEvent) (self : PointerListener) :
  contact self = None ->
  contact_call m event self =
    (self, [],
     Throw (TypeError ("Cannot read properties of null (reading '"
                       +:+ ContactMethod_name m +:+ "')"))).
Proof.
  intros Hc. unfold contact_call. by rewrite bind_read, Hc.
Qed.

Lemma pointerdown_new (event : PointerEvent) (self : PointerListener) :
  no_active_contact (contact self) = true ->
  pointerdown event self =
    (set_contact (Some (new_Contact event)) self,
     SetPointerCapture (pointerId event) :: NewContact event
       :: hook_trace hook_pointerdown event self,
     Normal tt).
Proof.
  intros Hno. unfold pointerdown. autorewrite with exec. rewrite Hno.
  autorewrite with exec. by rewrite call_hook_run.
Qed.

Lemma pointerdown_add (event : PointerEvent) (self : PointerListener) (c : Contact) :
  contact self = Some c -> isActive c = true ->
  pointerdown event self =
    (set_contact (Some (addPointer c event)) self,
     SetPointerCapture (pointerId event) :: ContactCall call_addPointer event
       :: hook_trace hook_pointerdown event self,
     Normal tt).
Proof.
  intros Hc Hact. unfold pointerdown. autorewrite with exec.
  rewrite Hc. cbn [no_active_contact]. rewrite Hact. cbn [negb].
  rewrite (bind_outcome _ _ _ _ _ _ (contact_call_run _ _ _ _ Hc)).
  by rewrite call_hook_run.
Qed.

(** The handler of a phase that updates the contact, run on a contact
    [c] with all entries of [supportedGestures] instances. *)
Lemma update_run (s : Sample) (m : ContactMethod) (event : PointerEvent)
    (self : PointerListener) (c : Contact) :
  update_of s = Some (m, event) ->
  contact self = Some c ->
  (isActive c = true \/ m = call_onPointerCancel) ->
  Forall is_Some (supportedGestures (options self)) ->
  handler s self =
    (with_gestures
       (recognized (Some (ContactMethod_run m c event)) (supportedGestures (options self)))
       (set_contact (Some (ContactMethod_run m c event)) self),
     release_trace s ++ ContactCall m event
       :: recognition (Some (ContactMethod_run m c event)) 0
            (supportedGestures (options self)) ++ hook_after s self,
     Normal tt).
Proof.
  intros Hs Hc Hact Hall.
  set (c' := Some (ContactMethod_run m c event)).
  assert (Hrec : recognizeGestures (set_contact c' self) =
    (with_gestures (recognized c' (supportedGestures (options self))) (set_contact c' self),
     recognition c' 0 (supportedGestures (options self)), Normal tt))
    by (by rewrite recognizeGestures_run).
  subst c'.
  destruct s as [e|e|e|e|e|e]; cbn in Hs; try discriminate;
    injection Hs as <- <-; cbn [handler release_trace hook_after].
  - destruct Hact as [Hact|?]; [|discriminate].
    unfold pointermove. rewrite bind_read, Hc. cbn [has_active_contact]. rewrite Hact.
    rewrite (bind_outcome _ _ _ _ _ _ (contact_call_run _ _ _ _ Hc)).
    rewrite (bind_outcome _ _ _ _ _ _ Hrec). by rewrite call_hook_run.
  - destruct Hact as [Hact|?]; [|discriminate].
    unfold pointerup. rewrite bind_effect, bind_read, Hc. cbn [has_active_contact]. rewrite Hact.
    rewrite (bind_outcome _ _ _ _ _ _ (contact_call_run _ _ _ _ Hc)).
    rewrite (bind_outcome _ _ _ _ _ _ Hrec). by rewrite call_hook_run.
  - destruct Hact as [Hact|?]; [|discriminate].
    unfold pointerleave. rewrite bind_read, Hc. cbn [has_active_contact]. rewrite Hact.
    rewrite (bind_outcome _ _ _ _ _ _ (contact_call_run _ _ _ _ Hc)).
    rewrite Hrec. cbn. by rewrite app_nil_r.
  - unfold pointercancel. rewrite bind_effect.
    rewrite (bind_outcome _ _ _ _ _ _ (contact_call_run _ _ _ _ Hc)).
    rewrite (bind_outcome _ _ _ _ _ _ Hrec). by rewrite call_hook_run.
Qed.


(** *** The configuration is fixed by the constructor *)

Lemma after_state {A} (t : list Effect) (x : PointerListener * list Effect * Completion A) :
  (after t x).1.1 = x.1.1.
Proof. by destruct x as [[? ?] ?]. Qed.

Lemma preserves_bind {A B} (m : Exec A) (k : A -> Exec B) :
  preserves_configuration m -> (forall a, preserves_configuration (k a)) ->
  preserves_configuration (bind m k).
Proof.
  intros Hm Hk self. unfold bind. specialize (Hm self).
  destruct (m self) as [[s1 t1] [a|e]]; [|done].
  rewrite after_state. cbn in Hm. by rewrite Hk.
Qed.

Lemma preserves_for_loop (body : nat -> Exec unit) (n : nat) :
  (forall g, preserves_configuration (body g)) ->
  forall g, preserves_configuration (for_loop g n body).
Proof.
  intros Hbody. induction n as [|n IH]; intros g; [done|].
  cbn [for_loop]. by apply preserves_bind.
Qed.

Lemma configuration_set_gesture (g : nat) (x y : Gesture) (self : PointerListener) :
  supportedGestures (options self) !! g = Some (Some x) ->
  configuration (set_gesture g y self) = configuration self.
Proof.
  intros Hg. unfold configuration, set_gesture.
  cbn [options supportedGestures handleTouchEvents pointerdown_hook pointermove_hook
       pointerup_hook pointercancel_hook listeners].
  f_equal. rewrite list_fmap_insert. apply list_insert_id.
  by rewrite list_lookup_fmap, Hg.
Qed.

Lemma preserves_recognize_at (g : nat) : preserves_configuration (recognize_at g).
Proof.
  intros self. unfold recognize_at. rewrite bind_read.
  destruct (supportedGestures (options self) !! g) as [[x|]|] eqn:Hg; [|done..].
  autorewrite with exec. rewrite ?after_state. cbn [fst].
  by apply configuration_set_gesture with x.
Qed.

Lemma preserves_touchmove_at (event : TouchEvent) (g : nat) :
  preserves_configuration (touchmove_at event g).
Proof.
  intros self. unfold touchmove_at. rewrite bind_read.
  destruct (supportedGestures (options self) !! g) as [[x|]|] eqn:Hg; [|done..].
  autorewrite with exec. rewrite ?after_state. cbn [fst].
  by apply configuration_set_gesture with x.
Qed.

Lemma preserves_recognizeGestures : preserves_configuration recognizeGestures.
Proof.
  intros self. unfold recognizeGestures. rewrite bind_read.
  apply preserves_for_loop, preserves_recognize_at.
Qed.

Lemma preserves_contact_call (m : ContactMethod) (event : PointerEvent) :
  preserves_configuration (contact_call m event).
Proof.
  intros self. unfold contact_call. rewrite bind_read.
  destruct (contact self); [|done]. by autorewrite with exec.
Qed.

Lemma preserves_call_hook (h : Hook) (event : PointerEvent) :
  preserves_configuration (call_hook h event).
Proof. intros self. by rewrite call_hook_run. Qed.

Lemma preserves_handler (s : Sample) : preserves_configuration (handler s).
Proof.
  pose proof preserves_recognizeGestures as Hrec.
  pose proof preserves_contact_call as Hcall.
  pose proof preserves_call_hook as Hhook.
  assert (Hupdate : forall m event (k : Exec unit),
    preserves_configuration k ->
    preserves_configuration (bind (contact_call m event) (fun _ => bind recognizeGestures (fun _ => k)))).
  { intros. apply preserves_bind; [done|]. intros _. by apply preserves_bind. }
  destruct s as [e|e|e|e|e|e]; cbn [handler]; intros self.
  - unfold pointerdown. rewrite bind_effect, after_state, bind_read.
    destruct (no_active_contact (contact self)).
    + autorewrite with exec. rewrite after_state. by rewrite Hhook.
    + by rewrite (preserves_bind _ _ (Hcall _ _) (fun _ => Hhook _ _)).
  - unfold pointermove. rewrite bind_read.
    destruct (has_active_contact (contact self)); [|done].
    by apply Hupdate.
  - unfold pointerup. rewrite bind_effect, after_state, bind_read.
    destruct (has_active_contact (contact self)); [|done].
    by apply Hupdate.
  - unfold pointerleave. rewrite bind_read.
    destruct (has_active_contact (contact self)); [|done].
    by apply preserves_bind.
  - unfold pointercancel. rewrite bind_effect, after_state.
    by apply Hupdate.
  - unfold touchmove. rewrite bind_read.
    apply preserves_for_loop, preserves_touchmove_at.
Qed.

Lemma preserves_dispatch (s : Sample) : preserves_configuration (dispatch s).
Proof.
  intros self. unfold dispatch. rewrite bind_read.
  destruct (bool_decide _); [apply preserves_handler|done].
Qed.

Lemma deliver_configuration (samples : list Sample) :
  forall self, configuration (deliver samples self).1 = configuration self.
Proof.
  induction samples as [|s samples IH]; intros self; [done|].
  cbn [deliver]. pose proof (preserves_dispatch s self) as Hs.
  destruct (dispatch s self) as [[self1 t] r]. cbn in Hs.
  specialize (IH self1). destruct (deliver samples self1) as [self2 outcomes].
  cbn in *. congruence.
Qed.

Lemma configuration_instances (self self' : PointerListener) :
  configuration self' = configuration self ->
  Forall is_Some (supportedGestures (options self)) ->
  Forall is_Some (supportedGestures (options self')).
Proof.
  unfold configuration. intros [= _ _ _ _ _ _ Hgs] Hall.
  assert (Htrue : Forall (fun b => b = true)
            ((fun gesture : option Gesture => bool_decide (is_Some gesture))
               <$> supportedGestures (options self'))).
  { rewrite Hgs. apply Forall_fmap. eapply Forall_impl; [exact Hall|].
    intros x Hx. by apply bool_decide_eq_true. }
  apply Forall_fmap in Htrue. eapply Forall_impl; [exact Htrue|].
  intros x Hx. by apply bool_decide_eq_true in Hx.
Qed.

(** *** What recognition and the hooks leave of the contact *)

Lemma for_loop_contact (body : nat -> Exec unit) (n : nat) :
  (forall g self, contact (body g self).1.1 = contact self) ->
  forall g self, contact (for_loop g n body self).1.1 = contact self.
Proof.
  intros Hbody. induction n as [|n IH]; intros g self; [done|].
  cbn [for_loop]. unfold bind. specialize (Hbody g self).
  destruct (body g self) as [[s1 t1] [[]|e]]; [|done].
  rewrite after_state. cbn in Hbody. by rewrite IH.
Qed.

Lemma recognizeGestures_contact (self : PointerListener) :
  contact (recognizeGestures self).1.1 = contact self.
Proof.
  unfold recognizeGestures. rewrite bind_read. apply for_loop_contact.
  intros g self'. unfold recognize_at. rewrite bind_read.
  destruct (supportedGestures (options self') !! g) as [[x|]|]; [|done..].
  autorewrite with exec. by rewrite ?after_state.
Qed.

(** With a contact, the handler of a phase that updates the contact
    begins with the call on the contact, and the contact it leaves is
    the updated one, whatever the gestures are and however the handler
    completes. *)
Lemma update_first (s : Sample) (m : ContactMethod) (event : PointerEvent)
    (self : PointerListener) (c : Contact) :
  update_of s = Some (m, event) ->
  contact self = Some c ->
  (isActive c = true \/ m = call_onPointerCancel) ->
  exists self' rest r,
    handler s self = (self', release_trace s ++ ContactCall m event :: rest, r) /\
    contact self' = Some (ContactMethod_run m c event).
Proof.
  intros Hs Hc Hact.
  assert (Hrest : forall k : Exec unit,
    (forall self0, contact (k self0).1.1 = contact self0) ->
    exists self' rest r,
      bind (contact_call m event) (fun _ => bind recognizeGestures (fun _ => k)) self
        = (self', ContactCall m event :: rest, r) /\
      contact self' = Some (ContactMethod_run m c event)).
  { intros k Hk. rewrite (bind_outcome _ _ _ _ _ _ (contact_call_run _ _ _ _ Hc)).
    set (self1 := set_contact _ self).
    assert (Hkeep : contact (bind recognizeGestures (fun _ => k) self1).1.1 = contact self1).
    { unfold bind. pose proof (recognizeGestures_contact self1) as Hrec.
      destruct (recognizeGestures self1) as [[s2 t2] [[]|e]]; [|done].
      rewrite after_state. cbn in Hrec. by rewrite Hk. }
    destruct (bind recognizeGestures (fun _ => k) self1) as [[self' rest] r].
    by exists self', rest, r. }
  assert (Hhook : forall h e self0, contact (call_hook h e self0).1.1 = contact self0)
    by (intros; by rewrite call_hook_run).
  destruct s as [e|e|e|e|e|e]; cbn in Hs; try discriminate;
    injection Hs as <- <-; cbn [handler release_trace app].
  - destruct Hact as [Hact|?]; [|discriminate].
    unfold pointermove. rewrite bind_read, Hc. cbn [has_active_contact]. rewrite Hact.
    apply Hrest, Hhook.
  - destruct Hact as [Hact|?]; [|discriminate].
    unfold pointerup. rewrite bind_effect, bind_read, Hc. cbn [has_active_contact]. rewrite Hact.
    destruct (Hrest _ (Hhook hook_pointerup e)) as (self' & rest & r & -> & Hc').
    by exists self', rest, r.
  - destruct Hact as [Hact|?]; [|discriminate].
    unfold pointerleave. rewrite bind_read, Hc. cbn [has_active_contact]. rewrite Hact.
    destruct (Hrest (ret tt)) as (self' & rest & r & Hrun & Hc'); [done|].
    exists self', rest, r. split; [|done]. rewrite <- Hrun.
    unfold bind. destruct (contact_call _ _ _) as [[s1 t1] [[]|?]]; [|done].
    f_equal. destruct (recognizeGestures s1) as [[s2 t2] [[]|?]]; [|done].
    cbn. by rewrite app_nil_r.
  - unfold pointercancel. rewrite bind_effect.
    destruct (Hrest _ (Hhook hook_pointercancel e)) as (self' & rest & r & -> & Hc').
    by exists self', rest, r.
Qed.

(** *** The constructor *)

Lemma constructor_Normal (domElement : DomElement) (opts : option Options) (self : PointerListener) :
  constructor domElement opts = Normal self ->
  contact self = None /\
  listeners self =
    ["pointerdown"; "pointermove"; "pointerup"; "pointerleave"; "pointercancel"]
    ++ addTouchListeners (options self) /\
  instantiate_all domElement
    (match opt_supportedGestures (default no_options opts) with
     | Some given => given
     | None => JSGestureClass <$> ALL_GESTURE_CLASSES
     end) = Normal (supportedGestures (options self)).
Proof.
  unfold constructor.
  destruct (instantiate_all _ _) as [gestures|e]; [|discriminate].
  by intros [= <-].
Qed.

Lemma instantiate_all_unsupported (domElement : DomElement) (given : list JSValue) (bad : JSValue) :
  bad ∈ given -> typeof bad <> "function" -> typeof bad <> "object" ->
  exists e, instantiate_all domElement given = Throw e.
Proof.
  intros Hin Hfun Hobj. induction given as [|v given IH]; [by apply elem_of_nil in Hin|].
  cbn [instantiate_all].
  destruct (instantiate domElement v) as [gesture|e] eqn:Hv; [|by eexists].
  apply elem_of_cons in Hin as [<-|Hin].
  - unfold instantiate in Hv. by rewrite !decide_False in Hv.
  - destruct (IH Hin) as [e ->]. by eexists.
Qed.

End ListenerFacts.

Section ListenerProperties.
Context `{Imports}.

(** The handlers of the phases other than down: for a move, up or
    leave sample that arrives while a Contact is active, and for a
    cancel sample that finds a Contact, the Contact is updated with the
    sample before any recognizer evaluates, and, the entries of
    [supportedGestures] being instances, each is then evaluated once,
    in registration order, on the updated Contact.  The handler of a
    down sample updates the Contact and evaluates no recognizer. *)
Lemma recognizers_run_after_contact_update (s : Sample) (m : ContactMethod)
    (event : PointerEvent) (self : PointerListener) (c : Contact) :
  (update_of s = Some (m, event) ->
   contact self = Some c ->
   (isActive c = true \/ m = call_onPointerCancel) ->
   Forall is_Some (supportedGestures (options self)) ->
   exists self' before rest,
     handler s self = (self', before ++ ContactCall m event :: rest, Normal tt) /\
     contact self' = Some (ContactMethod_run m c event) /\
     evaluations before = [] /\
     contact_updates rest = [] /\
     evaluations rest =
       (fun g => (g, Some (ContactMethod_run m c event)))
         <$> seq 0 (length (supportedGestures (options self)))) /\
  (forall down,
     evaluations (handler (Down down) self).1.2 = [] /\
     length (contact_updates (handler (Down down) self).1.2) = 1).
Proof.
  split.
  - intros Hs Hc Hact Hall.
    eexists _, (release_trace s), _. split; [by apply (update_run s m event self c)|].
    split; [done|]. split; [by destruct s|].
    rewrite contact_updates_app, contact_updates_recognition.
    rewrite evaluations_app, evaluations_recognition by done.
    split; [|rewrite <- (app_nil_r (_ <$> _)) at 2; f_equal];
      destruct s as [e|e|e|e|e|e]; try done; cbn [hook_after]; unfold hook_trace;
      by destruct (has_hook _ _).
  - intros down. cbn [handler].
    destruct (no_active_contact (contact self)) eqn:Hno.
    + rewrite pointerdown_new by done. cbn.
      unfold hook_trace. by destruct (has_hook _ _).
    + destruct (contact self) as [c0|] eqn:Hc0; [|discriminate].
      cbn in Hno. apply negb_false_iff in Hno.
      rewrite (pointerdown_add _ _ c0) by done. cbn.
      unfold hook_trace. by destruct (has_hook _ _).
Qed.

(** C5: on a pointer-down sample, when no Contact is active (there is
    none, or the one there is inactive) a new Contact is created with
    that sample and becomes the listener's Contact; when a Contact is
    active the sample is added to it with [addPointer], the listener's
    Contact is that Contact with the pointer added, and no new Contact
    is created.  Nothing else of the listener changes. *)
Theorem pointerdown_creates_or_extends_contact (event : PointerEvent) (self : PointerListener) :
  (no_active_contact (contact self) = true ->
   exists self' trace,
     pointerdown event self = (self', trace, Normal tt) /\
     self' = set_contact (Some (new_Contact event)) self /\
     contact self' = Some (new_Contact event) /\
     options self' = options self /\
     domElement self' = domElement self /\
     listeners self' = listeners self /\
     contact_updates trace = [NewContact event]) /\
  (forall c, contact self = Some c -> isActive c = true ->
   exists self' trace,
     pointerdown event self = (self', trace, Normal tt) /\
     self' = set_contact (Some (addPointer c event)) self /\
     contact self' = Some (addPointer c event) /\
     options self' = options self /\
     domElement self' = domElement self /\
     listeners self' = listeners self /\
     contact_updates trace = [ContactCall call_addPointer event]).
Proof.
  split.
  - intros Hno. eexists _, _. split; [by apply pointerdown_new|].
    repeat (split; [reflexivity|]).
    cbn. unfold hook_trace. by destruct (has_hook _ _).
  - intros c Hc Hact. eexists _, _. split; [by apply pointerdown_add|].
    repeat (split; [reflexivity|]).
    cbn. unfold hook_trace. by destruct (has_hook _ _).
Qed.


(** A cancel sample that finds no Contact: the handler releases the
    capture and then throws. *)
Lemma pointercancel_without_contact (event : PointerEvent) (self : PointerListener) :
  contact self = None ->
  pointercancel event self =
    (self, [ReleasePointerCapture (pointerId event)],
     Throw (TypeError "Cannot read properties of null (reading 'onPointerCancel')")).
Proof.
  intros Hc. unfold pointercancel. rewrite bind_effect.
  unfold bind. by rewrite contact_call_null.
Qed.

Lemma dispatch_registered (s : Sample) (self : PointerListener) :
  event_type s ∈ listeners self -> dispatch s self = handler s self.
Proof.
  intros Hin. unfold dispatch. rewrite bind_read. by rewrite bool_decide_eq_true_2.
Qed.

(** A listener made by the constructor has a listener for every pointer
    phase, whatever samples it has processed: delivering a pointer
    sample runs its handler. *)
Lemma dispatch_pointer_sample (domElement : DomElement) (opts : option Options)
    (self0 : PointerListener) (samples : list Sample) (s : Sample) :
  constructor domElement opts = Normal self0 ->
  event_type s <> "touchmove" ->
  dispatch s (deliver samples self0).1 = handler s (deliver samples self0).1.
Proof.
  intros (_ & Hl & _)%constructor_Normal Hs. apply dispatch_registered.
  pose proof (deliver_configuration samples self0) as Hconf.
  injection Hconf as -> _. rewrite Hl. apply elem_of_app. left.
  destruct s; try done; apply (bool_decide_unpack _); by vm_compute.
Qed.

(** A cancel sample as the first sample of a new listener. *)
Lemma pointercancel_first (domElement : DomElement) (opts : option Options)
    (self : PointerListener) (event : PointerEvent) :
  constructor domElement opts = Normal self ->
  dispatch (Cancel event) self =
    (self, [ReleasePointerCapture (pointerId event)],
     Throw (TypeError "Cannot read properties of null (reading 'onPointerCancel')")).
Proof.
  intros (Hc & Hl & _)%constructor_Normal.
  rewrite dispatch_registered by (rewrite Hl; apply elem_of_app; left;
    apply (bool_decide_unpack _); by vm_compute).
  by apply pointercancel_without_contact.
Qed.

(** A [supportedGestures] option with an entry whose [typeof] is neither
    "function" nor "object" makes the constructor throw: no listener
    comes to exist, so no sample is processed. *)
Lemma unsupported_gesture_type_rejected (domElement : DomElement) (opts : Options)
    (given : list JSValue) (bad : JSValue) :
  opt_supportedGestures opts = Some given ->
  bad ∈ given ->
  typeof bad <> "function" ->
  typeof bad <> "object" ->
  exists e, constructor domElement (Some opts) = Throw e.
Proof.
  intros Hgiven Hin Hfun Hobj. unfold constructor. cbn [default from_option id]. rewrite Hgiven.
  destruct (instantiate_all_unsupported domElement given bad) as [e ->]; by eauto.
Qed.

(** With touch-event handling enabled and the entries of
    [supportedGestures] all instances, a raw touch-move is passed as it
    is to every registered recognizer, once and in registration order,
    whatever pointer samples came before; the Contact is not touched
    and no recognizer is evaluated. *)
Lemma touchmove_forwarded_to_gestures (domElement : DomElement) (opts : option Options)
    (self0 : PointerListener) (samples : list Sample) (event : TouchEvent) :
  constructor domElement opts = Normal self0 ->
  handleTouchEvents (options self0) = true ->
  Forall is_Some (supportedGestures (options self0)) ->
  let self := (deliver samples self0).1 in
  let gestures := supportedGestures (options self) in
  exists self' trace,
    dispatch (RawTouchMove event) self = (self', trace, Normal tt) /\
    trace = (fun g => TouchMove g event) <$> seq 0 (length gestures) /\
    supportedGestures (options self') = touched event gestures /\
    contact self' = contact self /\
    contact_updates trace = [] /\
    evaluations trace = [].
Proof.
  intros (_ & Hl & _)%constructor_Normal Htouch Hall self gestures.
  pose proof (deliver_configuration samples self0) as Hconf. fold self in Hconf.
  assert (Hall' : Forall is_Some gestures) by (by eapply configuration_instances).
  assert (Hin : "touchmove" ∈ listeners self).
  { injection Hconf as -> _. rewrite Hl. unfold addTouchListeners. rewrite Htouch.
    apply elem_of_app. right. by apply list_elem_of_singleton. }
  eexists _, _. rewrite dispatch_registered by done. cbn [handler].
  split; [by apply touchmove_run|]. split; [done|]. split; [done|]. split; [done|].
  generalize 0. induction (length _) as [|n IH]; [done|]. intros g. cbn. apply IH.
Qed.

(** C10: without a [supportedGestures] option the constructor
    registers one instance of each of Tap, Pan, Pinch, Rotate and
    TwoFingerPan, in this order; Press is exported by index.ts and is not
    among them. *)
Theorem default_gestures (domElement : DomElement) (opts : option Options) :
  opt_supportedGestures (default no_options opts) = None ->
  (exists self,
     constructor domElement opts = Normal self /\
     supportedGestures (options self) =
       (fun c => Some (new_Gesture c domElement))
         <$> [Tap; Pan; Pinch; Rotate; TwoFingerPan]) /\
  (GestureClass_name Press ∈ exports) /\
  (Press ∉ ALL_GESTURE_CLASSES).
Proof.
  intros Hnone. split; [|split].
  - unfold constructor. rewrite Hnone. cbn. by eexists.
  - apply (bool_decide_unpack _). by vm_compute.
  - apply (bool_decide_unpack _). by vm_compute.
Qed.

End ListenerProperties.

(** ** The listener on concrete samples *)

Section ListenerExamples.
Import Examples.

(** C4: a down sample delivered to a new listener with the five
    default recognizers: the handler creates the Contact and evaluates
    none of them, where the comment above the handlers says that the
    recognizers are run on pointerdown too; the sibling handler of
    pointermove, on the next sample of the same pointer, updates the
    Contact and then evaluates all five, in order, on the updated
    Contact. *)
Theorem pointerdown_evaluates_no_recognizer :
  exists self0 self1 trace self2 trace',
    constructor rectangle None = Normal self0 /\
    length (supportedGestures (options self0)) = 5 /\
    dispatch (Down (sample 1 10 10 0)) self0 = (self1, trace, Normal tt) /\
    contact self1 = Some (new_Contact (sample 1 10 10 0)) /\
    contact_updates trace = [NewContact (sample 1 10 10 0)] /\
    evaluations trace = [] /\
    (* the sibling handler evaluates after the update *)
    dispatch (Move (sample 1 12 10 5)) self1 = (self2, trace', Normal tt) /\
    contact_updates trace' = [ContactCall call_onPointerMove (sample 1 12 10 5)] /\
    evaluations trace' = (fun g => (g, contact self2)) <$> seq 0 5.
Proof. eexists _, _, _, _, _. repeat split; reflexivity. Qed.

Lemma pointerdown_creates_or_extends_contact_witness :
  let event := sample 2 40 10 7 in
  let c := SpecContact_new (sample 1 10 10 0) in
  let idle := listener_with [Some pan_recorder] None in
  let busy := listener_with [Some pan_recorder] (Some c) in
  (no_active_contact (contact idle) = true /\
   exists self' trace,
     pointerdown event idle = (self', trace, Normal tt) /\
     self' = set_contact (Some (new_Contact event)) idle /\
     contact self' = Some (new_Contact event) /\
     options self' = options idle /\
     domElement self' = domElement idle /\
     listeners self' = listeners idle /\
     contact_updates trace = [NewContact event]) /\
  (contact busy = Some c /\ isActive c = true /\
   exists self' trace,
     pointerdown event busy = (self', trace, Normal tt) /\
     self' = set_contact (Some (addPointer c event)) busy /\
     contact self' = Some (addPointer c event) /\
     options self' = options busy /\
     domElement self' = domElement busy /\
     listeners self' = listeners busy /\
     contact_updates trace = [ContactCall call_addPointer event]).
Proof.
  intros event c idle busy. split.
  - split; [reflexivity|].
    apply (proj1 (pointerdown_creates_or_extends_contact event idle)). reflexivity.
  - split; [reflexivity|]. split; [reflexivity|].
    apply (proj2 (pointerdown_creates_or_extends_contact event busy) c); reflexivity.
Defined.



(** C7: a cancel sample delivered to a new listener, before any down
    sample: the handler calls [onPointerCancel] on the [null] contact,
    which throws a TypeError out of the listener. *)
Theorem pointercancel_before_pointerdown_throws :
  exists self,
    constructor rectangle None = Normal self /\
    dispatch (Cancel (sample 1 10 10 0)) self =
      (self, [ReleasePointerCapture 1],
       Throw (TypeError "Cannot read properties of null (reading 'onPointerCancel')")) /\
    (* the sibling handlers guard the same access *)
    dispatch (Move (sample 1 10 10 0)) self = (self, [], Normal tt) /\
    dispatch (Up (sample 1 10 10 0)) self = (self, [ReleasePointerCapture 1], Normal tt) /\
    dispatch (Leave (sample 1 10 10 0)) self = (self, [], Normal tt).
Proof.
  eexists. split; [reflexivity|]. split.
  - by apply (pointercancel_first (H := example_imports) rectangle None).
  - repeat split; reflexivity.
Qed.


Lemma default_gestures_witness :
  opt_supportedGestures (default no_options None) = None /\
  (exists self,
     constructor rectangle None = Normal self /\
     supportedGestures (options self) =
       (fun c => Some (new_Gesture c rectangle))
         <$> [Tap; Pan; Pinch; Rotate; TwoFingerPan]) /\
  (GestureClass_name Press ∈ exports) /\
  (Press ∉ ALL_GESTURE_CLASSES).
Proof.
  split; [reflexivity|]. apply (default_gestures (H := example_imports) rectangle None). reflexivity.
Defined.

(** C8: the entry [null] is neither a constructor function nor an
    object, but its [typeof] is "object": the constructor takes it as a
    gesture instance and does not throw; the error comes at recognition
    time, when the first move sample on an active contact calls
    [recognize] on it. *)
Theorem null_gesture_accepted :
  exists self self1 self2,
    constructor rectangle (Some (options_with [JSNull])) = Normal self /\
    (deliver [Down (sample 1 10 10 0)] self).1 = self1 /\
    dispatch (Move (sample 1 12 10 5)) self1 =
      (self2, [ContactCall call_onPointerMove (sample 1 12 10 5)],
       Throw (TypeError "Cannot read properties of null (reading 'recognize')")).
Proof. eexists _, _, _. repeat split; reflexivity. Qed.

End ListenerExamples.

(** * Further properties of the code *)

(** ** index.ts: the constructor and the handlers *)

Section HandlerFacts.
Import IndexTraces.
Context `{Imports}.

#[local] Arguments call_hook : simpl never.
#[local] Arguments recognizeGestures : simpl never.
#[local] Arguments touchmove : simpl never.
#[local] Arguments contact_call : simpl never.

Lemma after_trace {A} (t : list Effect) (x : PointerListener * list Effect * Completion A) :
  (after t x).1.2 = t ++ x.1.2.
Proof. by destruct x as [[? ?] ?]. Qed.

(** A property of all effects of a statement, also when it throws. *)
Lemma bind_effects_all {A B} (P : Effect -> Prop) (m : Exec A) (k : A -> Exec B) :
  (forall self, Forall P (m self).1.2) ->
  (forall a self, Forall P (k a self).1.2) ->
  forall self, Forall P (bind m k self).1.2.
Proof.
  intros Hm Hk self. unfold bind. specialize (Hm self).
  destruct (m self) as [[s1 t1] [a|e]]; [|done].
  rewrite after_trace. apply Forall_app. split; [done|apply Hk].
Qed.

Lemma for_loop_effects_all (P : Effect -> Prop) (body : nat -> Exec unit) (n : nat) :
  (forall g self, Forall P (body g self).1.2) ->
  forall g self, Forall P (for_loop g n body self).1.2.
Proof.
  intros Hbody. induction n as [|n IH]; intros g self; [by constructor|].
  cbn [for_loop]. by apply bind_effects_all.
Qed.

Lemma captures_app (t1 t2 : list Effect) :
  captures (t1 ++ t2) = captures t1 ++ captures t2.
Proof. induction t1 as [|[] t1 IH]; cbn; by rewrite ?IH. Qed.

Lemma hook_calls_app (t1 t2 : list Effect) :
  hook_calls (t1 ++ t2) = hook_calls t1 ++ hook_calls t2.
Proof. induction t1 as [|[] t1 IH]; cbn; by rewrite ?IH. Qed.

Lemma captures_none (t : list Effect) :
  Forall (fun e => captures [e] = []) t -> captures t = [].
Proof.
  induction 1 as [|e t He _ IH]; [done|].
  change (e :: t) with ([e] ++ t). by rewrite captures_app, He, IH.
Qed.

Lemma recognize_at_no_capture (g : nat) (self : PointerListener) :
  Forall (fun e => captures [e] = []) (recognize_at g self).1.2.
Proof.
  unfold recognize_at. rewrite bind_read.
  destruct (supportedGestures (options self) !! g) as [[x|]|]; [|by constructor..].
  autorewrite with exec. cbn. constructor; [done|].
  by apply Forall_fmap, Forall_true.
Qed.

Lemma touchmove_at_no_capture (event : TouchEvent) (g : nat) (self : PointerListener) :
  Forall (fun e => captures [e] = []) (touchmove_at event g self).1.2.
Proof.
  unfold touchmove_at. rewrite bind_read.
  destruct (supportedGestures (options self) !! g) as [[x|]|]; [|by constructor..].
  autorewrite with exec. cbn. by repeat constructor.
Qed.

Lemma recognizeGestures_no_capture (self : PointerListener) :
  Forall (fun e => captures [e] = []) (recognizeGestures self).1.2.
Proof.
  unfold recognizeGestures. rewrite bind_read.
  apply for_loop_effects_all, recognize_at_no_capture.
Qed.

Lemma contact_call_no_capture (m : ContactMethod) (event : PointerEvent) (self : PointerListener) :
  Forall (fun e => captures [e] = []) (contact_call m event self).1.2.
Proof.
  unfold contact_call. rewrite bind_read.
  destruct (contact self); [|by constructor]. autorewrite with exec. by repeat constructor.
Qed.

Lemma call_hook_no_capture (h : Hook) (event : PointerEvent) (self : PointerListener) :
  Forall (fun e => captures [e] = []) (call_hook h event self).1.2.
Proof.
  rewrite call_hook_run. unfold hook_trace. destruct (has_hook _ _); by repeat constructor.
Qed.

(** The contact update, the evaluation of the gestures and the hook
    touch no pointer capture. *)
Lemma update_no_capture (m : ContactMethod) (event : PointerEvent) (k : Exec unit)
    (self : PointerListener) :
  (forall self, Forall (fun e => captures [e] = []) (k self).1.2) ->
  captures (bind (contact_call m event) (fun _ => bind recognizeGestures (fun _ => k)) self).1.2
    = [].
Proof.
  intros Hk. apply captures_none.
  apply bind_effects_all; [apply contact_call_no_capture|]. intros _.
  apply bind_effects_all; [apply recognizeGestures_no_capture|]. by intros _.
Qed.

(** X1: a down sample sets the pointer capture of its pointer, an up
    and a cancel sample release it, and this is all a handler does to
    pointer capture: whether there is a Contact or not, and also when
    the handler throws after it. *)
Theorem pointer_capture_by_phase (s : Sample) (self : PointerListener) :
  captures (handler s self).1.2 = capture_of s.
Proof.
  destruct s as [e|e|e|e|e|e]; cbn [handler capture_of].
  - unfold pointerdown. rewrite bind_effect, after_trace, captures_app. cbn [captures app].
    f_equal. apply captures_none. rewrite bind_read.
    apply bind_effects_all; [|intros; apply call_hook_no_capture].
    intros self'. destruct (no_active_contact _); [|apply contact_call_no_capture].
    autorewrite with exec. by repeat constructor.
  - unfold pointermove. rewrite bind_read.
    destruct (has_active_contact _); [|done].
    apply update_no_capture. intros; apply call_hook_no_capture.
  - unfold pointerup. rewrite bind_effect, after_trace, captures_app, bind_read. cbn [captures app].
    f_equal. destruct (has_active_contact _); [|done].
    apply update_no_capture. intros; apply call_hook_no_capture.
  - unfold pointerleave. rewrite bind_read.
    destruct (has_active_contact _); [|done].
    apply captures_none.
    apply bind_effects_all; [apply contact_call_no_capture|].
    intros; apply recognizeGestures_no_capture.
  - unfold pointercancel. rewrite bind_effect, after_trace, captures_app. cbn [captures app].
    f_equal. apply update_no_capture. intros; apply call_hook_no_capture.
  - unfold touchmove. rewrite bind_read. apply captures_none.
    apply for_loop_effects_all. intros; apply touchmove_at_no_capture.
Qed.


(** X2: no sequence of samples changes what the constructor has fixed,
    whether the handlers complete or throw: the event types listened
    to, the flags of the options, the number of registered gestures,
    and which entries are [null]. *)
Theorem samples_keep_configuration (samples : list Sample) (self : PointerListener) :
  let self' := (deliver samples self).1 in
  listeners self' = listeners self /\
  handleTouchEvents (options self') = handleTouchEvents (options self) /\
  (forall h, has_hook h (options self') = has_hook h (options self)) /\
  length (supportedGestures (options self')) = length (supportedGestures (options self)) /\
  (forall g, supportedGestures (options self') !! g = Some None <->
             supportedGestures (options self) !! g = Some None).
Proof.
  intros self'. pose proof (deliver_configuration samples self) as Hconf.
  fold self' in Hconf. unfold configuration in Hconf.
  injection Hconf as Hl Ht Hd Hm Hu Hc Hg.
  split; [done|]. split; [done|]. split; [by intros []|].
  split; [apply (f_equal length) in Hg; by rewrite !length_fmap in Hg|].
  intros g. apply (f_equal (fun l => l !! g)) in Hg. rewrite !list_lookup_fmap in Hg.
  destruct (supportedGestures (options self') !! g) as [[x|]|],
           (supportedGestures (options self) !! g) as [[y|]|]; cbn in Hg;
    try discriminate; done.
Qed.

Lemma handler_without_contact (s : Sample) (self : PointerListener) :
  contact self = None -> after_down s = true ->
  handler s self = (self, (outcome_without_contact s).1, (outcome_without_contact s).2).
Proof.
  intros Hc Hs. destruct s as [e|e|e|e|e|e]; try discriminate; cbn [handler].
  - unfold pointermove. by rewrite bind_read, Hc.
  - unfold pointerup. by rewrite bind_effect, bind_read, Hc.
  - unfold pointerleave. by rewrite bind_read, Hc.
  - by apply pointercancel_without_contact.
Qed.

(** X3: a listener that has seen no down sample has no Contact, and no
    sequence of move, up, leave and cancel samples gives it one or
    changes it in any way: each move and leave does nothing, each up
    only releases the capture, and each cancel throws the TypeError of
    the call on [null]. *)
Theorem no_contact_before_pointerdown (domElement : DomElement) (opts : option Options)
    (self : PointerListener) (samples : list Sample) :
  constructor domElement opts = Normal self ->
  Forall (fun s => after_down s = true) samples ->
  deliver samples self = (self, outcome_without_contact <$> samples).
Proof.
  intros Hnew Hall.
  pose proof (constructor_Normal _ _ _ Hnew) as (Hc & Hl & _).
  induction Hall as [|s samples Hs _ IH]; [done|].
  cbn [deliver fmap list_fmap].
  rewrite dispatch_registered, (handler_without_contact s self Hc Hs), IH.
  - by destruct (outcome_without_contact s).
  - rewrite Hl. apply elem_of_app. left.
    destruct s; try discriminate; apply (bool_decide_unpack _); by vm_compute.
Qed.

(** *** The constructor's loop *)

Lemma instantiate_all_app (domElement : DomElement) (good rest : list JSValue)
    (gestures : list (option Gesture)) :
  instantiate_all domElement good = Normal gestures ->
  instantiate_all domElement (good ++ rest) =
    match instantiate_all domElement rest with
    | Normal more => Normal (gestures ++ more)
    | Throw e => Throw e
    end.
Proof.
  revert gestures. induction good as [|v good IH]; intros gestures Hgood.
  - injection Hgood as <-. cbn. by destruct (instantiate_all domElement rest).
  - cbn [instantiate_all app] in *.
    destruct (instantiate domElement v) as [g|e]; [|discriminate].
    destruct (instantiate_all domElement good) as [gs|e]; [|discriminate].
    injection Hgood as <-. rewrite (IH gs eq_refl).
    by destruct (instantiate_all domElement rest).
Qed.

(** X4: the constructor takes the entries of [supportedGestures] in
    order, and at the first entry whose type is neither "function" nor
    "object" it throws an Error whose message names that type; the
    entries after it are not looked at (a constructor among them is not
    called). *)
Theorem constructor_names_unsupported_type (domElement : DomElement) (opts : Options)
    (good rest : list JSValue) (bad : JSValue) (gestures : list (option Gesture)) :
  opt_supportedGestures opts = Some (good ++ bad :: rest) ->
  instantiate_all domElement good = Normal gestures ->
  typeof bad <> "function" ->
  typeof bad <> "object" ->
  constructor domElement (Some opts) =
    Throw (Error ("unsupported gesture type: " +:+ typeof bad)).
Proof.
  intros Hgiven Hgood Hfun Hobj. unfold constructor. cbn [default from_option id].
  rewrite Hgiven, (instantiate_all_app _ _ _ _ Hgood). cbn [instantiate_all].
  unfold instantiate. by rewrite !decide_False.
Qed.

Lemma instantiate_all_lookup (domElement : DomElement) (given : list JSValue) :
  forall gestures,
    instantiate_all domElement given = Normal gestures ->
    length gestures = length given /\
    forall i v, given !! i = Some v ->
      match v with
      | JSObject g => gestures !! i = Some (Some g)
      | JSGestureClass c => gestures !! i = Some (Some (new_Gesture c domElement))
      | JSNull => gestures !! i = Some None
      | _ => True
      end.
Proof.
  induction given as [|v given IH]; intros gestures Hall.
  - injection Hall as <-. split; [done|]. by intros i v.
  - cbn [instantiate_all] in Hall.
    destruct (instantiate domElement v) as [g|e] eqn:Hv; [|discriminate].
    destruct (instantiate_all domElement given) as [gs|e]; [|discriminate].
    injection Hall as <-. destruct (IH gs eq_refl) as [Hlen Hlook].
    split; [by cbn; rewrite Hlen|].
    intros [|i] w Hi; cbn in Hi.
    + injection Hi as <-. unfold instantiate in Hv.
      destruct v; cbn in Hv; try done; by injection Hv as <-.
    + by apply Hlook.
Qed.

(** X5: the constructor registers the gestures in the order of the
    [supportedGestures] option, one for each entry: an entry that is an
    instance is registered as it is, at its position, a gesture class
    is replaced by a new instance on the element, and [null] stays
    [null]. *)
Theorem constructor_keeps_order (domElement : DomElement) (opts : Options)
    (given : list JSValue) (self : PointerListener) :
  opt_supportedGestures opts = Some given ->
  constructor domElement (Some opts) = Normal self ->
  length (supportedGestures (options self)) = length given /\
  (forall i g, given !! i = Some (JSObject g) ->
     supportedGestures (options self) !! i = Some (Some g)) /\
  (forall i c, given !! i = Some (JSGestureClass c) ->
     supportedGestures (options self) !! i = Some (Some (new_Gesture c domElement))) /\
  (forall i, given !! i = Some JSNull ->
     supportedGestures (options self) !! i = Some None).
Proof.
  intros Hgiven (_ & _ & Hall)%constructor_Normal.
  cbn [default from_option id] in Hall. rewrite Hgiven in Hall.
  destruct (instantiate_all_lookup _ _ _ Hall) as [Hlen Hlook].
  split; [done|]. repeat split; intros; by eapply (Hlook _ _) in H0.
Qed.

(** X6: touch events are handled unless the [handleTouchEvents] option
    is given as false.  With it false the constructor adds no listener
    of "touchmove", and a raw touch-move reaches no gesture and changes
    nothing, whatever samples came before; otherwise the listener is
    there after every sequence of samples. *)
Theorem touchmove_only_when_enabled (domElement : DomElement) (opts : option Options)
    (self0 : PointerListener) (samples : list Sample) (event : TouchEvent) :
  constructor domElement opts = Normal self0 ->
  let self := (deliver samples self0).1 in
  (opt_handleTouchEvents (default no_options opts) = Some false ->
   dispatch (RawTouchMove event) self = (self, [], Normal tt)) /\
  (opt_handleTouchEvents (default no_options opts) <> Some false ->
   dispatch (RawTouchMove event) self = touchmove event self).
Proof.
  intros Hnew self.
  pose proof (constructor_Normal _ _ _ Hnew) as (_ & Hl & _).
  pose proof (deliver_configuration samples self0) as Hconf. fold self in Hconf.
  injection Hconf as Hl' _.
  assert (Htouch : handleTouchEvents (options self0)
                   = default true (opt_handleTouchEvents (default no_options opts))).
  { unfold constructor in Hnew. destruct (instantiate_all _ _); [|discriminate].
    by injection Hnew as <-. }
  split.
  - intros Hoff. unfold dispatch. rewrite bind_read, Hl', Hl.
    unfold addTouchListeners. rewrite Htouch, Hoff. cbn [default from_option id].
    by rewrite bool_decide_eq_false_2
      by (intros Hin; apply (bool_decide_pack _) in Hin; by vm_compute in Hin).
  - intros Hon. apply (dispatch_registered (RawTouchMove event)).
    rewrite Hl', Hl. apply elem_of_app. right.
    unfold addTouchListeners. rewrite Htouch.
    destruct (opt_handleTouchEvents (default no_options opts)) as [[]|];
      [by apply list_elem_of_singleton|done|by apply list_elem_of_singleton].
Qed.


(** *** A [null] entry among the gestures *)

Lemma recognize_loop_null (todo : list (option Gesture)) :
  forall (done_ rest : list (option Gesture)) (self : PointerListener),
    supportedGestures (options self) = done_ ++ todo ++ None :: rest ->
    Forall is_Some todo ->
    for_loop (length done_) (length todo + S (length rest)) recognize_at self =
      (with_gestures (done_ ++ recognized (contact self) todo ++ None :: rest) self,
       recognition (contact self) (length done_) todo,
       Throw (TypeError "Cannot read properties of null (reading 'recognize')")).
Proof.
  induction todo as [|gesture todo IH]; intros done_ rest self Hgs Hall.
  - cbn [app] in Hgs.
    cbn [length Nat.add for_loop app recognized fmap list_fmap recognition].
    unfold bind. unfold recognize_at at 1. rewrite bind_read, Hgs, list_lookup_middle by done.
    cbn. by rewrite <- Hgs, with_gestures_id.
  - apply Forall_cons in Hall as [[x ->] Hall].
    cbn [for_loop length Nat.add]. unfold recognize_at at 1.
    autorewrite with exec. rewrite Hgs. cbn [app]. rewrite list_lookup_middle by done.
    autorewrite with exec.
    rewrite set_gesture_with_gestures, Hgs. cbn [app]. rewrite insert_middle.
    specialize (IH (done_ ++ [Some (recognize x (contact self)).1]) rest
                   (with_gestures (done_ ++ Some (recognize x (contact self)).1
                                     :: todo ++ None :: rest) self)).
    rewrite length_app in IH. cbn [length] in IH. rewrite Nat.add_1_r in IH.
    rewrite IH; [|by rewrite <- app_assoc|done].
    cbn. by rewrite <- !app_assoc.
Qed.

Lemma touchmove_loop_null (event : TouchEvent) (todo : list (option Gesture)) :
  forall (done_ rest : list (option Gesture)) (self : PointerListener),
    supportedGestures (options self) = done_ ++ todo ++ None :: rest ->
    Forall is_Some todo ->
    for_loop (length done_) (length todo + S (length rest)) (touchmove_at event) self =
      (with_gestures (done_ ++ touched event todo ++ None :: rest) self,
       (fun g => TouchMove g event) <$> seq (length done_) (length todo),
       Throw (TypeError "Cannot read properties of null (reading 'onTouchMove')")).
Proof.
  induction todo as [|gesture todo IH]; intros done_ rest self Hgs Hall.
  - cbn [app] in Hgs.
    cbn [length Nat.add for_loop app touched fmap list_fmap seq].
    unfold bind. unfold touchmove_at at 1. rewrite bind_read, Hgs, list_lookup_middle by done.
    cbn. by rewrite <- Hgs, with_gestures_id.
  - apply Forall_cons in Hall as [[x ->] Hall].
    cbn [for_loop length Nat.add]. unfold touchmove_at at 1.
    autorewrite with exec. rewrite Hgs. cbn [app]. rewrite list_lookup_middle by done.
    autorewrite with exec.
    rewrite set_gesture_with_gestures, Hgs. cbn [app]. rewrite insert_middle.
    specialize (IH (done_ ++ [Some (onTouchMove x event)]) rest
                   (with_gestures (done_ ++ Some (onTouchMove x event)
                                     :: todo ++ None :: rest) self)).
    rewrite length_app in IH. cbn [length] in IH. rewrite Nat.add_1_r in IH.
    rewrite IH; [|by rewrite <- app_assoc|done].
    cbn. by rewrite <- !app_assoc.
Qed.


(** *** The hooks *)

Lemma hook_calls_recognition (c : option Contact) (gestures : list (option Gesture)) :
  forall g, hook_calls (recognition c g gestures) = [].
Proof.
  induction gestures as [|[x|] gestures IH]; intros g; [done| |]; cbn.
  - rewrite hook_calls_app, IH, app_nil_r. by induction (recognize x c).2.
  - apply IH.
Qed.

Lemma hook_calls_hook_trace (h : Hook) (event : PointerEvent) (self : PointerListener) :
  hook_calls (hook_trace h event self) =
    if has_hook h (options self) then [(h, event)] else [].
Proof. unfold hook_trace. by destruct (has_hook _ _). Qed.

Lemma hook_after_update (t : list Effect) (h : Hook) (event : PointerEvent)
    (self : PointerListener) :
  hook_calls t = [] ->
  hook_calls (t ++ hook_trace h event self)
    = (if has_hook h (options self) then [(h, event)] else []) /\
  (has_hook h (options self) = true ->
   last (t ++ hook_trace h event self) = Some (CallHook h event)).
Proof.
  intros Ht. rewrite hook_calls_app, Ht, hook_calls_hook_trace. split; [done|].
  intros Hh. unfold hook_trace. rewrite Hh. apply last_snoc.
Qed.

(** X8: a handler calls at most one hook, the one of its phase, and
    calls it last: after the Contact is updated and after every gesture
    has been evaluated.  The hook of "pointerdown" is called on every
    down sample; those of "pointermove" and "pointerup" only while a
    Contact is active, that of "pointercancel" whenever there is a
    Contact; "pointerleave" and "touchmove" have no hook. *)
Theorem hook_called_last (s : Sample) (self : PointerListener) :
  Forall is_Some (supportedGestures (options self)) ->
  let trace := (handler s self).1.2 in
  hook_calls trace = from_option (fun call => [call]) [] (hook_of s self) /\
  (forall h event, hook_of s self = Some (h, event) -> last trace = Some (CallHook h event)).
Proof.
  intros Hall trace. subst trace.
  assert (Hupdate : forall m event c h,
    update_of s = Some (m, event) -> contact self = Some c ->
    isActive c = true \/ m = call_onPointerCancel ->
    hook_after s self = hook_trace h event self ->
    hook_calls (handler s self).1.2
      = (if has_hook h (options self) then [(h, event)] else []) /\
    (has_hook h (options self) = true ->
     last (handler s self).1.2 = Some (CallHook h event))).
  { intros m event c h Hs Hc Hact Hh. rewrite (update_run s m event self c) by done.
    cbn [fst snd]. rewrite Hh, app_comm_cons, !app_assoc.
    apply hook_after_update.
    rewrite hook_calls_app. cbn [hook_calls]. rewrite hook_calls_recognition, app_nil_r.
    by destruct s. }
  assert (Hdown : forall (t : list Effect) e,
    hook_calls t = [] ->
    hook_calls (t ++ hook_trace hook_pointerdown e self)
      = from_option (fun call => [call]) []
          (if pointerdown_hook (options self) then Some (hook_pointerdown, e) else None) /\
    (forall h event,
       (if pointerdown_hook (options self) then Some (hook_pointerdown, e) else None)
         = Some (h, event) ->
       last (t ++ hook_trace hook_pointerdown e self) = Some (CallHook h event))).
  { intros t e Ht. destruct (hook_after_update t hook_pointerdown e self Ht) as [Hcalls Hlast].
    cbn [has_hook] in *. rewrite Hcalls. destruct (pointerdown_hook _); [|by split].
    split; [done|]. intros h event [= <- <-]. by apply Hlast. }
  destruct s as [e|e|e|e|e|e]; cbn [hook_of].
  - (* down *)
    cbn [handler]. destruct (no_active_contact (contact self)) eqn:Hno.
    + rewrite pointerdown_new by done. cbn [fst snd].
      by apply (Hdown [SetPointerCapture (pointerId e); NewContact e]).
    + destruct (contact self) as [c|] eqn:Hc; [|discriminate].
      cbn in Hno. apply negb_false_iff in Hno.
      rewrite (pointerdown_add _ _ c) by done. cbn [fst snd].
      by apply (Hdown [SetPointerCapture (pointerId e); ContactCall call_addPointer e]).
  - (* move *)
    destruct (contact self) as [c|] eqn:Hc; cbn [has_active_contact].
    + destruct (isActive c) eqn:Hact; cbn [andb].
      * destruct (Hupdate call_onPointerMove e c hook_pointermove) as [Hcalls Hlast]; auto.
        cbn [has_hook] in *. rewrite Hcalls. destruct (pointermove_hook _); [|by split].
        split; [done|]. intros h event [= <- <-]. by apply Hlast.
      * cbn [handler]. unfold pointermove. rewrite bind_read, Hc. cbn [has_active_contact].
        rewrite Hact. by split.
    + cbn [handler]. unfold pointermove. rewrite bind_read, Hc. by split.
  - (* up *)
    destruct (contact self) as [c|] eqn:Hc; cbn [has_active_contact].
    + destruct (isActive c) eqn:Hact; cbn [andb].
      * destruct (Hupdate call_onPointerUp e c hook_pointerup) as [Hcalls Hlast]; auto.
        cbn [has_hook] in *. rewrite Hcalls. destruct (pointerup_hook _); [|by split].
        split; [done|]. intros h event [= <- <-]. by apply Hlast.
      * cbn [handler]. unfold pointerup. rewrite bind_effect, bind_read, Hc.
        cbn [has_active_contact]. rewrite Hact. by split.
    + cbn [handler]. unfold pointerup. rewrite bind_effect, bind_read, Hc. by split.
  - (* leave *)
    split; [|discriminate].
    destruct (contact self) as [c|] eqn:Hc.
    + destruct (isActive c) eqn:Hact.
      * rewrite (update_run (Leave e) call_onPointerLeave e self c) by auto.
        cbn [fst snd release_trace hook_after app hook_calls].
        by rewrite app_nil_r, hook_calls_recognition.
      * cbn [handler]. unfold pointerleave. rewrite bind_read, Hc. cbn [has_active_contact].
        by rewrite Hact.
    + cbn [handler]. unfold pointerleave. by rewrite bind_read, Hc.
  - (* cancel *)
    destruct (contact self) as [c|] eqn:Hc.
    + destruct (Hupdate call_onPointerCancel e c hook_pointercancel) as [Hcalls Hlast]; auto.
      rewrite bool_decide_eq_true_2 by eauto.
      cbn [has_hook andb] in *. rewrite Hcalls. destruct (pointercancel_hook _); [|by split].
      split; [done|]. intros h event [= <- <-]. by apply Hlast.
    + cbn [handler]. rewrite pointercancel_without_contact by done.
      rewrite bool_decide_eq_false_2 by (by intros []). by split.
  - (* touchmove *)
    cbn [handler]. rewrite touchmove_run by done. cbn [fst snd].
    split; [|discriminate]. generalize 0. induction (length _) as [|n IH]; [done|].
    intros g. cbn. apply IH.
Qed.

End HandlerFacts.

(** ** tests/gestures/test.js: the page *)

Section StateFacts.
Context {State Effect : Type}.

Lemma keeps_bind {A B} (Inv : State -> Prop) (m : JS.Exec State Effect A)
    (k : A -> JS.Exec State Effect B) :
  TestPage.keeps Inv m -> (forall a, TestPage.keeps Inv (k a)) ->
  TestPage.keeps Inv (bind m k).
Proof.
  intros Hm Hk s Hs. unfold bind. specialize (Hm s Hs).
  destruct (m s) as [[s1 t1] [a|e]]; [|done].
  specialize (Hk a s1 Hm). by destruct (k a s1) as [[? ?] ?].
Qed.

Lemma keeps_lift {A} (Inv : State -> Prop) (r : Completion A) :
  TestPage.keeps Inv (lift (State := State) (Effect := Effect) r).
Proof. by intros s Hs. Qed.

Lemma keeps_ret {A} (Inv : State -> Prop) (a : A) :
  TestPage.keeps Inv (ret (State := State) (Effect := Effect) a).
Proof. by intros s Hs. Qed.

Lemma keeps_throw {A} (Inv : State -> Prop) (e : JSError) :
  TestPage.keeps Inv (throw (State := State) (Effect := Effect) (A := A) e).
Proof. by intros s Hs. Qed.

Lemma keeps_effect (Inv : State -> Prop) (e : Effect) :
  TestPage.keeps Inv (effect (State := State) e).
Proof. by intros s Hs. Qed.

Lemma keeps_read {A} (Inv : State -> Prop) (f : State -> A) :
  TestPage.keeps Inv (read (Effect := Effect) f).
Proof. by intros s Hs. Qed.

Lemma keeps_write (Inv : State -> Prop) (f : State -> State) :
  (forall s, Inv s -> Inv (f s)) ->
  TestPage.keeps Inv (write (Effect := Effect) f).
Proof. intros Hf s Hs. by apply Hf. Qed.

Lemma respects_bind {A B} (R : State -> State -> Prop) (m : JS.Exec State Effect A)
    (k : A -> JS.Exec State Effect B) :
  TestPage.respects R m -> (forall a, TestPage.respects R (k a)) ->
  TestPage.respects R (bind m k).
Proof.
  intros Hm Hk s1 s2 Hs. unfold bind. specialize (Hm s1 s2 Hs).
  destruct (m s1) as [[s1' t1] r1], (m s2) as [[s2' t2] r2].
  cbn in Hm. destruct Hm as (Hs' & -> & ->).
  destruct r2 as [a|e]; [|done].
  specialize (Hk a s1' s2' Hs').
  destruct (k a s1') as [[? ?] ?], (k a s2') as [[? ?] ?].
  cbn in *. destruct Hk as (? & -> & ->). done.
Qed.

Lemma respects_lift {A} (R : State -> State -> Prop) (r : Completion A) :
  TestPage.respects R (lift (State := State) (Effect := Effect) r).
Proof. by intros s1 s2 Hs. Qed.

Lemma respects_ret {A} (R : State -> State -> Prop) (a : A) :
  TestPage.respects R (ret (State := State) (Effect := Effect) a).
Proof. by intros s1 s2 Hs. Qed.

Lemma respects_effect (R : State -> State -> Prop) (e : Effect) :
  TestPage.respects R (effect (State := State) e).
Proof. by intros s1 s2 Hs. Qed.

Lemma respects_read {A} (R : State -> State -> Prop) (f : State -> A) :
  (forall s1 s2, R s1 s2 -> f s1 = f s2) ->
  TestPage.respects R (read (Effect := Effect) f).
Proof. intros Hf s1 s2 Hs. cbn. by rewrite (Hf s1 s2 Hs). Qed.

Lemma respects_write (R : State -> State -> Prop) (f : State -> State) :
  (forall s1 s2, R s1 s2 -> R (f s1) (f s2)) ->
  TestPage.respects R (write (Effect := Effect) f).
Proof. intros Hf s1 s2 Hs. cbn. split; [by apply Hf|done]. Qed.

Lemma after_keeps_state {A} (t : list Effect) (x : State * list Effect * Completion A) :
  (after t x).1.1 = x.1.1.
Proof. by destruct x as [[? ?] ?]. Qed.

Lemma after_normal_inv {A} (t : list Effect)
    (x : State * list Effect * Completion A) s out (a : A) :
  after t x = (s, out, Normal a) ->
  exists t', x = (s, t', Normal a) /\ out = t ++ t'.
Proof. destruct x as [[s' t'] r]. cbn. intros [= -> <- ->]. by eexists. Qed.

End StateFacts.

Section PageUpdates.
Import GesturesTest TestPage.
Context `{Builtins}.

(** An integer in a string built with [+]. *)
Lemma interpolate_Number (text : string) (n : Z) (parts : list (string + Value)) :
  interpolate text (inr (Number n) :: parts)
    = interpolate (text +:+ NumberToString n) parts.
Proof. done. Qed.

Lemma interpolate_text (text more : string) (parts : list (string + Value)) :
  interpolate text (inl more :: parts) = interpolate (text +:+ more) parts.
Proof. done. Qed.

(** [requestElementUpdate] by the string it builds. *)
Lemma requestElementUpdate_run (p : Page) :
  requestElementUpdate p =
    match transformString (transform p) with
    | Throw e => (p, [], Throw e)
    | Normal text =>
        if ticking p then (p, [], Normal tt)
        else (with_ticking true p, [RequestAnimationFrame text], Normal tt)
    end.
Proof.
  unfold requestElementUpdate, transformString. rewrite bind_read.
  destruct (interpolate "" (inl "translate3d(" :: _)) as [a|e];
    [rewrite bind_lift_Normal|by rewrite bind_lift_Throw].
  destruct (interpolate "" (inl "scale3d(" :: _)) as [b|e];
    [rewrite bind_lift_Normal|by rewrite bind_lift_Throw].
  destruct (interpolate "" (inl "rotate3d(" :: _)) as [c|e];
    [rewrite bind_lift_Normal|by rewrite bind_lift_Throw].
  rewrite bind_read. destruct (ticking p); [done|]. by rewrite bind_effect.
Qed.

(** X9: [requestElementUpdate] has at most one animation frame
    pending.  When it returns, [ticking] is set; it has requested a
    frame exactly when [ticking] was clear before, and nothing else of
    the page has changed; a second call right after it requests no
    frame and changes nothing. *)
Theorem requestElementUpdate_one_frame (before after : Page) (out : list Output) :
  requestElementUpdate before = (after, out, Normal tt) ->
  ticking after = true /\
  after = with_ticking true before /\
  (ticking before = true -> out = []) /\
  (ticking before = false ->
     exists text, out = [RequestAnimationFrame text]) /\
  requestElementUpdate after = (after, [], Normal tt).
Proof.
  rewrite (requestElementUpdate_run before), (requestElementUpdate_run after).
  destruct (transformString (transform before)) as [text|e] eqn:Htext; [|discriminate].
  destruct (ticking before) eqn:Htick.
  - intros [= <- <-]. rewrite Htext, Htick. repeat split; try done.
    destruct before; cbn in *; by subst.
  - intros [= <- <-]. cbn. rewrite Htext. repeat split; try done. by eexists.
Qed.

(** The identity transform as a string. *)
Lemma transformString_initial :
  exists text, transformString initial_transform = Normal text.
Proof. by eexists. Qed.

(** X10: [resetElementTransform] does not throw, whatever the page is
    like.  It sets the class "animate" and the identity transform; with
    a frame pending it asks, by a timeout, to be called again, and
    without one it requests a frame; either way [ticking] is set after
    it and the document is untouched. *)
Theorem resetElementTransform_completes (before : Page) :
  exists after out,
    resetElementTransform before = (after, out, Normal tt) /\
    rectangle_className after = "animate" /\
    transform after = initial_transform /\
    ticking after = true /\
    document after = document before /\
    (ticking before = true -> out = [SetTimeout_resetElementTransform]) /\
    (ticking before = false ->
       exists text, out = [RequestAnimationFrame text]).
Proof.
  unfold resetElementTransform, set_className, set_transform.
  rewrite !bind_write, bind_read. cbn [ticking].
  destruct (ticking before) eqn:Htick.
  - eexists _, _. split; [reflexivity|]. cbn. by repeat split.
  - rewrite requestElementUpdate_run. cbn [transform ticking]. rewrite ?Htick.
    destruct transformString_initial as [text ->].
    eexists _, _. split; [reflexivity|]. cbn. repeat split; try done. by eexists.
Qed.

(** X11: [onPinch] looks at [event.detail.global.scale]: when it is
    [null] or [undefined] the transform stays as it is and no frame is
    requested, only the class of the rectangle is cleared; otherwise
    the horizontal and the vertical scale become that value, the third
    becomes 1, and translation and rotation stay. *)
Theorem onPinch_needs_scale (event : CustomEvent) (scale : Value) (before : Page) :
  path (detail event) ["global"; "scale"] = Normal scale ->
  (not_null scale = false ->
   onPinch event before = (with_className "" before, [], Normal tt)) /\
  (not_null scale = true ->
   forall after out, onPinch event before = (after, out, Normal tt) ->
     let t := transform before in
     transform after =
       {| translate_x := translate_x t; translate_y := translate_y t;
          scale_x := scale; scale_y := scale; scale_z := Number 1;
          rotate_x := rotate_x t; rotate_y := rotate_y t; rotate_z := rotate_z t;
          rotate_angle := rotate_angle t |} /\
     ticking after = true).
Proof.
  intros Hscale. unfold onPinch, set_className. rewrite bind_write, Hscale, bind_lift_Normal.
  split; intros Hnull; rewrite Hnull; [done|].
  intros after out. unfold set_transform.
  rewrite bind_read, bind_write, bind_read, bind_effect, requestElementUpdate_run.
  cbn [transform ticking].
  destruct (transformString _); [|discriminate].
  destruct (ticking before); cbn; intros [= <- _]; by split.
Qed.

(** *** Writing to the document *)

Lemma set_textContent_Normal (id : string) (v : Value) (before after : Page)
    (out : list Output) :
  set_textContent id v before = (after, out, Normal tt) ->
  is_Some (document before !! id) /\ out = [] /\
  exists text, after = with_document (<[id := text]> (document before)) before /\
               forall s, v = String s -> text = s.
Proof.
  unfold set_textContent. rewrite bind_read.
  destruct (document before !! id) as [old|] eqn:Hid.
  - rewrite bool_decide_eq_true_2 by eauto.
    match goal with |- context [lift ?c] => destruct c as [text|e] eqn:Htext end.
    + rewrite bind_lift_Normal. unfold write. intros [= <- <-].
      split; [by eauto|]. split; [done|]. exists text. split; [done|].
      intros s ->. cbn in Htext. by injection Htext.
    + rewrite bind_lift_Throw. discriminate.
  - rewrite bool_decide_eq_false_2 by (by intros []). discriminate.
Qed.

Lemma dom_with_document (id text : string) (p : Page) :
  is_Some (document p !! id) ->
  dom (document (with_document (<[id := text]> (document p)) p)) = dom (document p).
Proof. intros Hid. cbn. by apply dom_insert_lookup_L. Qed.

(** An id that ends in "-output" is none of the six motion elements. *)
Lemma output_id_not_motion (name : string) :
  name +:+ "-output" ∉ motion_elements.
Proof.
  unfold motion_elements. intros Hin.
  repeat (apply elem_of_cons in Hin as [Hin|Hin];
    [exfalso; revert Hin; generalize name; clear;
     let rec go := (intros [|? name] Hin; cbn in Hin;
                    [discriminate|first [discriminate|injection Hin as _ Hin; revert name Hin; go]])
     in go|]).
  by apply elem_of_nil in Hin.
Qed.

Lemma writes_only_refl (ids : list string) (p : Page) : writes_only ids p p.
Proof. split; [by destruct p|done]. Qed.

Lemma writes_only_trans (ids : list string) (p q r : Page) :
  writes_only ids p q -> writes_only ids q r -> writes_only ids p r.
Proof.
  intros (Hq & Hdom & Hrest) (Hr & Hdom' & Hrest'). split; [|split].
  - rewrite Hr, Hq. done.
  - by rewrite Hdom'.
  - intros id Hid. rewrite Hrest', Hrest; done.
Qed.

Lemma writes_only_mono (ids ids' : list string) (p q : Page) :
  ids ⊆ ids' -> writes_only ids p q -> writes_only ids' p q.
Proof.
  intros Hsub (Hq & Hdom & Hrest). split; [done|]. split; [done|].
  intros id Hid. apply Hrest. intros Hin. by apply Hid, Hsub.
Qed.

Lemma set_textContent_writes (id : string) (v : Value) (before after : Page)
    (out : list Output) :
  set_textContent id v before = (after, out, Normal tt) ->
  writes_only [id] before after /\ out = [] /\
  exists text, document after !! id = Some text /\ forall s, v = String s -> text = s.
Proof.
  intros (Hid & -> & text & -> & Htext)%set_textContent_Normal.
  split; [|split; [done|]].
  - split; [done|]. split; [by apply dom_with_document|].
    intros other Hother. cbn. apply lookup_insert_ne.
    intros ->. apply Hother. by apply list_elem_of_singleton.
  - exists text. split; [|done]. cbn. by rewrite lookup_insert_eq.
Qed.

Lemma writes_only_write (ids : list string) (id : string) (v : Value)
    (p q r : Page) (out : list Output) :
  id ∈ ids -> writes_only ids p q ->
  set_textContent id v q = (r, out, Normal tt) ->
  writes_only ids p r /\ out = [].
Proof.
  intros Hid Hq (Hr & -> & _)%set_textContent_writes. split; [|done].
  apply (writes_only_trans _ _ q); [done|].
  apply (writes_only_mono [id]); [|done].
  intros ? ->%list_elem_of_singleton. done.
Qed.

Ltac run_inv :=
  repeat match goal with
  | H : bind _ _ _ = (_, _, Normal _) |- _ =>
      apply bind_normal_inv in H as (? & ? & ? & ? & ? & H & ?)
  | H : lift _ _ = (_, _, Normal _) |- _ =>
      apply lift_normal_inv in H as (H & ? & ?)
  | H : effect _ _ = (_, _, Normal _) |- _ =>
      unfold effect in H; injection H as ? ?
  end;
  repeat match goal with u : unit |- _ => destruct u end.

(** The six writes of the motion, one after the other. *)
Ltac motion_writes Hw :=
  repeat match goal with
  | H : set_textContent ?id _ ?q = (_, _, Normal _) |- _ =>
      match type of Hw with
      | writes_only ?ids _ q =>
          let Hin := fresh in
          assert (Hin : id ∈ ids) by (apply (bool_decide_unpack _); by vm_compute);
          apply (writes_only_write _ _ _ _ _ _ _ Hin Hw) in H as [H ?];
          clear Hw Hin; rename H into Hw
      end
  end.


(** X13: when [clearOutput] completes, the element [showOutput] wrote
    the state of the gesture to is empty, and so is "swipe-output";
    the six elements of the motion keep their text, no element is
    created or removed, the rest of the page is as before and nothing
    is logged. *)
Theorem clearOutput_clears (event : CustomEvent) (before after : Page)
    (out : list Output) :
  clearOutput event before = (after, out, Normal tt) ->
  out = [] /\
  document after !! "swipe-output" = Some "" /\
  (forall id, output_element event = Normal id -> document after !! id = Some "") /\
  (forall id, id ∈ motion_elements -> document after !! id = document before !! id) /\
  dom (document after) = dom (document before) /\
  after = with_document (document after) before.
Proof.
  intros Hrun. unfold clearOutput in Hrun.
  destruct (path (detail event) ["recognizer"; "eventBaseName"]) as [name|] eqn:Hname;
    [rewrite bind_lift_Normal in Hrun|by rewrite bind_lift_Throw in Hrun].
  destruct (concat name "-output") as [base|] eqn:Hbase;
    [rewrite bind_lift_Normal in Hrun|by rewrite bind_lift_Throw in Hrun].
  apply bind_normal_inv in Hrun as (cleared & t1 & t2 & [] & Hfirst & Hsecond & ->).
  apply set_textContent_writes in Hfirst as (Hw1 & -> & text1 & Hid1 & Htext1).
  apply set_textContent_writes in Hsecond as (Hw2 & -> & text2 & Hid2 & Htext2).
  rewrite (Htext1 _ eq_refl) in Hid1. rewrite (Htext2 _ eq_refl) in Hid2.
  assert (Hcleared : document after !! base = Some "").
  { destruct (decide (base = "swipe-output")) as [->|Hne]; [done|].
    destruct Hw2 as (_ & _ & Hrest). rewrite Hrest; [done|].
    by intros ?%list_elem_of_singleton. }
  assert (Hmotion : base ∉ motion_elements).
  { unfold concat in Hbase. destruct (ToPrimitive _ _); [|discriminate].
    injection Hbase as <-. apply output_id_not_motion. }
  destruct Hw1 as (Heq1 & Hdom1 & Hrest1). destruct Hw2 as (Heq2 & Hdom2 & Hrest2).
  split; [done|]. split; [done|]. split; [|split; [|split]].
  - intros id. unfold output_element.
    destruct (get (detail event) "recognizer"); [|discriminate].
    rewrite Hname, Hbase. destruct (is_swipe _) as [[]|]; intros [= <-]; done.
  - intros id Hid. rewrite Hrest2, Hrest1; [done| |].
    + intros ->%list_elem_of_singleton. done.
    + intros ->%list_elem_of_singleton.
      by apply (output_id_not_motion "swipe").
  - by rewrite Hdom2.
  - rewrite Heq2 at 1. rewrite Heq1. done.
Qed.

End PageUpdates.

Section SessionFacts.
Import GesturesTest TestPage.
Context `{Builtins}.

Lemma on_page_state {A} (m : GesturesTest.Exec A) (s : Session) :
  (on_page m s).1.1 = with_page (m (the_page s)).1.1 s.
Proof. unfold on_page. by destruct (m (the_page s)) as [[? ?] ?]. Qed.

Lemma keeps_on_page {A} (Inv : Session -> Prop) (InvP : Page -> Prop)
    (m : GesturesTest.Exec A) :
  (forall s, Inv s -> InvP (the_page s)) ->
  (forall p s, Inv s -> InvP p -> Inv (with_page p s)) ->
  keeps InvP m -> keeps Inv (on_page m).
Proof.
  intros Hpage Hwith Hm s Hs. rewrite on_page_state. apply Hwith; [done|].
  by apply Hm, Hpage.
Qed.

Lemma run_keeps (Inv : Session -> Prop) (steps : list Step) :
  Forall (fun x => keeps Inv (step x)) steps ->
  forall s, Inv s -> Inv (run steps s).
Proof.
  induction 1 as [|x steps Hx _ IH]; intros s Hs; [done|].
  cbn [run]. by apply IH, Hx.
Qed.

Lemma any_keeps_True {A} (m : GesturesTest.Exec A) : keeps (fun _ => True) m.
Proof. by intros ? ?. Qed.

(** One step of the proof that a statement keeps a property;
    statements on the page keep [InvP]. *)
Ltac keeps_statement InvP :=
  first
  [ apply keeps_ret | apply keeps_lift | apply keeps_effect | apply keeps_read
  | apply keeps_throw
  | apply keeps_write; intros ? ?; cbn; solve [auto]
  | apply keeps_bind; [|intros ?]
  | apply (keeps_on_page _ InvP); [by intros ? ?|by intros ? ? ? ?|]
  | lazymatch goal with
    | |- keeps _ (if ?b then _ else _) => destruct b
    | |- keeps _ (match ?b with _ => _ end) => destruct b
    end
  | progress cbv zeta
  | progress unfold onEnd, onTap, onPress, set_PINCHACTIVE, set_ROTATIONACTIVE,
      set_TWOFINGERPANACTIVE, animation_frame, fire,
      pan_listener, showOutput, clearOutput, onPan, onTwoFingerPan, onPinch,
      onRotation, resetElementTransform, requestElementUpdate, pointerup_hook,
      set_textContent, set_className, set_transform, set_ticking,
      set_TAP_ACTIVE, set_PRESS_ACTIVE ].

Lemma showOutput_keeps_TAP_ACTIVE (event : CustomEvent) :
  keeps (fun p => TAP_ACTIVE p = true) (showOutput event).
Proof. repeat keeps_statement (fun p : Page => TAP_ACTIVE p = true). Qed.

Lemma showOutput_keeps_PRESS_ACTIVE (event : CustomEvent) :
  keeps (fun p => PRESS_ACTIVE p = true) (showOutput event).
Proof. repeat keeps_statement (fun p : Page => PRESS_ACTIVE p = true). Qed.

Ltac keeps_step InvP :=
  first
  [ apply any_keeps_True
  | apply showOutput_keeps_TAP_ACTIVE | apply showOutput_keeps_PRESS_ACTIVE
  | keeps_statement InvP ].

Lemma step_keeps_TWOFINGERPANACTIVE (x : Step) :
  keeps (fun s => TWOFINGERPANACTIVE s = true) (step x).
Proof.
  destruct x as [event|t| |]; cbn [step].
  - unfold on_event, listener.
    repeat (case_decide; [repeat keeps_step (fun _ : Page => True)|]).
    apply keeps_ret.
  - destruct t; repeat keeps_step (fun _ : Page => True).
  - repeat keeps_step (fun _ : Page => True).
  - repeat keeps_step (fun _ : Page => True).
Qed.

Lemma step_keeps_TAP_ACTIVE (x : Step) :
  clears_TAP_ACTIVE x = false ->
  keeps (fun s => TAP_ACTIVE (the_page s) = true) (step x).
Proof.
  destruct x as [event|t| |]; cbn [step].
  - intros _. unfold on_event, listener.
    repeat (case_decide; [repeat keeps_step (fun p : Page => TAP_ACTIVE p = true)|]).
    apply keeps_ret.
  - destruct t; [discriminate|..]; intros _;
      repeat keeps_step (fun p : Page => TAP_ACTIVE p = true).
  - intros _. repeat keeps_step (fun p : Page => TAP_ACTIVE p = true).
  - intros _. repeat keeps_step (fun p : Page => TAP_ACTIVE p = true).
Qed.

Lemma step_keeps_PRESS_ACTIVE (x : Step) :
  clears_PRESS_ACTIVE x = false ->
  keeps (fun s => PRESS_ACTIVE (the_page s) = true) (step x).
Proof.
  destruct x as [event|t| |]; cbn [step].
  - intros _. unfold on_event, listener.
    repeat (case_decide; [repeat keeps_step (fun p : Page => PRESS_ACTIVE p = true)|]).
    apply keeps_ret.
  - destruct t; [|discriminate|..]; intros _;
      repeat keeps_step (fun p : Page => PRESS_ACTIVE p = true).
  - intros _. repeat keeps_step (fun p : Page => PRESS_ACTIVE p = true).
  - intros _. repeat keeps_step (fun p : Page => PRESS_ACTIVE p = true).
Qed.

Lemma run_keeps_unless (Inv : Session -> Prop) (clears : Step -> bool)
    (steps : list Step) :
  (forall x, clears x = false -> keeps Inv (step x)) ->
  existsb clears steps = false ->
  forall s, Inv s -> Inv (run steps s).
Proof.
  intros Hstep Hnone. apply run_keeps. apply Forall_forall. intros x Hx.
  apply Hstep. destruct (clears x) eqn:Hclears; [|done].
  rewrite <- Hnone. symmetry. apply existsb_exists. exists x. split; [|done].
  by apply list_elem_of_In.
Qed.

(** With [TAP_ACTIVE] or [PRESS_ACTIVE] set, the [pointerup] hook of
    the page changes nothing. *)
Lemma pointerup_hook_held (pointerListener : Value) (p : Page) :
  TAP_ACTIVE p = true \/ PRESS_ACTIVE p = true ->
  (pointerup_hook pointerListener p).1 = (p, []).
Proof.
  intros Hheld. unfold pointerup_hook.
  destruct (path pointerListener _) as [f|];
    [rewrite bind_lift_Normal|by rewrite bind_lift_Throw].
  destruct (call f) as [onSurface|];
    [rewrite bind_lift_Normal|by rewrite bind_lift_Throw].
  destruct (loose_eq_boolean onSurface false) as [none|];
    [rewrite bind_lift_Normal|by rewrite bind_lift_Throw].
  rewrite !bind_read.
  destruct Hheld as [-> | ->]; by rewrite ?andb_false_r.
Qed.

(** X14: once the listener of "twofingerpanstart" or of
    "twofingerpanend" has run, [TWOFINGERPANACTIVE] is true and stays
    true whatever happens on the page afterwards (the listener of
    "twofingerpanend" sets it to true as well, and nothing sets it to
    false); from then on [onEnd] does nothing, so the end of a pan, a
    pinch or a rotation no longer resets the rectangle. *)
Theorem TWOFINGERPANACTIVE_stays_set (event end_event : CustomEvent)
    (steps : list Step) (s : Session) :
  type event = "twofingerpanstart" \/ type event = "twofingerpanend" ->
  let s' := run steps (on_event event s).1.1 in
  TWOFINGERPANACTIVE s' = true /\ onEnd end_event s' = (s', [], Normal tt).
Proof.
  intros Htype s'.
  assert (Hset : TWOFINGERPANACTIVE (on_event event s).1.1 = true).
  { unfold on_event, listener.
    destruct Htype as [-> | ->];
      repeat (case_decide; [discriminate|]); (case_decide; [|done]);
      unfold set_TWOFINGERPANACTIVE; rewrite bind_write;
      match goal with
      | |- TWOFINGERPANACTIVE (?m ?s0).1.1 = true =>
          assert (keeps (fun s => TWOFINGERPANACTIVE s = true) m) as Hkeeps
            by (repeat keeps_step (fun _ : Page => True));
          by apply Hkeeps
      end. }
  assert (Hstays : TWOFINGERPANACTIVE s' = true).
  { apply (run_keeps (fun s => TWOFINGERPANACTIVE s = true)); [|done].
    apply Forall_forall. intros x _. apply step_keeps_TWOFINGERPANACTIVE. }
  split; [done|]. unfold onEnd. by rewrite !bind_read, Hstays.
Qed.

(** X15: a tap or a press holds back the reset of the [pointerup]
    hook.  Once the listener of "tap" has run, whether it completed or
    threw, and until the timer that clears [TAP_ACTIVE] fires, the hook
    changes nothing of the page and schedules nothing, whatever
    [hasPointersOnSurface()] returns; the same for "press" and
    [PRESS_ACTIVE]. *)
Theorem tap_holds_back_pointerup_reset (event : CustomEvent) (steps : list Step)
    (pointerListener : Value) (s : Session) :
  (type event = "tap" /\ existsb clears_TAP_ACTIVE steps = false) \/
  (type event = "press" /\ existsb clears_PRESS_ACTIVE steps = false) ->
  let s' := run steps (on_event event s).1.1 in
  (on_page (pointerup_hook pointerListener) s').1 = (s', []).
Proof.
  intros Htype s'.
  assert (Hheld : TAP_ACTIVE (the_page s') = true \/ PRESS_ACTIVE (the_page s') = true).
  { destruct Htype as [[Htype Hsteps]|[Htype Hsteps]]; [left|right].
    - apply (run_keeps_unless (fun s => TAP_ACTIVE (the_page s) = true)
               clears_TAP_ACTIVE); [apply step_keeps_TAP_ACTIVE|done|].
      unfold on_event, listener. rewrite Htype.
      repeat (case_decide; [discriminate|]). (case_decide; [|done]).
      rewrite (bind_outcome _ _ _ (with_page (set_TAP_ACTIVE true (the_page s)).1.1 s) [] tt)
        by done.
      rewrite after_keeps_state.
      match goal with
      | |- TAP_ACTIVE (the_page (?m ?s0).1.1) = true =>
          assert (keeps (fun s => TAP_ACTIVE (the_page s) = true) m) as Hkeeps
            by (repeat keeps_step (fun p : Page => TAP_ACTIVE p = true));
          by apply Hkeeps
      end.
    - apply (run_keeps_unless (fun s => PRESS_ACTIVE (the_page s) = true)
               clears_PRESS_ACTIVE); [apply step_keeps_PRESS_ACTIVE|done|].
      unfold on_event, listener. rewrite Htype.
      repeat (case_decide; [discriminate|]). (case_decide; [|done]).
      rewrite (bind_outcome _ _ _ (with_page (set_PRESS_ACTIVE true (the_page s)).1.1 s) [] tt)
        by done.
      rewrite after_keeps_state.
      match goal with
      | |- PRESS_ACTIVE (the_page (?m ?s0).1.1) = true =>
          assert (keeps (fun s => PRESS_ACTIVE (the_page s) = true) m) as Hkeeps
            by (repeat keeps_step (fun p : Page => PRESS_ACTIVE p = true));
          by apply Hkeeps
      end. }
  apply pointerup_hook_held with (pointerListener := pointerListener) in Hheld.
  unfold on_page. destruct (pointerup_hook pointerListener (the_page s')) as [[p t] r].
  injection Hheld as -> ->. by destruct s'.
Qed.

(** *** A flag that nothing reads *)

Lemma respects_on_page {A} (m : GesturesTest.Exec A) :
  respects same_but_PINCHACTIVE (on_page m).
Proof.
  intros s1 s2 (Hpage & Hr & Ht & Hs). unfold on_page. rewrite Hpage.
  by destruct (m (the_page s2)) as [[p t] r].
Qed.

Ltac respects_step :=
  first
  [ apply respects_ret | apply respects_lift | apply respects_effect
  | apply respects_on_page
  | apply respects_read; by intros ? ? (? & ? & ? & ?)
  | apply respects_write; by intros ? ? (? & ? & ? & ?)
  | apply respects_bind; [|intros ?]
  | lazymatch goal with
    | |- respects _ (if ?b then _ else _) => destruct b
    end
  | progress unfold onEnd, onTap, onPress, set_PINCHACTIVE, set_ROTATIONACTIVE,
      set_TWOFINGERPANACTIVE, animation_frame, fire ].

Lemma step_respects (x : Step) : respects same_but_PINCHACTIVE (step x).
Proof.
  destruct x as [event|t| |]; cbn [step].
  - unfold on_event, listener.
    repeat (case_decide; [repeat respects_step|]). apply respects_ret.
  - destruct t; repeat respects_step.
  - repeat respects_step.
  - repeat respects_step.
Qed.

(** X16: [PINCHACTIVE] is written by the listeners of "pinchstart" and
    "pinchend" and read by nothing: two pages that differ in it at most
    put out the same and complete the same at every step of any
    sequence of events, timeouts, frames and pointerups, and still
    differ in it at most afterwards. *)
Theorem PINCHACTIVE_is_never_read (steps : list Step) (s1 s2 : Session) :
  same_but_PINCHACTIVE s1 s2 ->
  log steps s1 = log steps s2 /\
  same_but_PINCHACTIVE (run steps s1) (run steps s2).
Proof.
  revert s1 s2. induction steps as [|x steps IH]; intros s1 s2 Hs; [done|].
  cbn [log run]. pose proof (step_respects x s1 s2 Hs) as Hx.
  destruct (step x s1) as [[s1' t1] r1], (step x s2) as [[s2' t2] r2].
  cbn in Hx. destruct Hx as (Hs' & -> & ->).
  destruct (IH s1' s2' Hs') as [-> Hrun]. done.
Qed.

End SessionFacts.

Section Scenarios.
Import Examples Scenarios IndexTraces.

Lemma no_contact_before_pointerdown_witness :
  let self := listener_with [Some pan_recorder] None in
  constructor rectangle (Some pan_options) = Normal self /\
  Forall (fun s => after_down s = true) early_samples /\
  deliver early_samples self = (self, outcome_without_contact <$> early_samples).
Proof.
  intros self.
  assert (Hnew : constructor rectangle (Some pan_options) = Normal self) by reflexivity.
  assert (Hearly : Forall (fun s => after_down s = true) early_samples)
    by (repeat constructor).
  exact (conj Hnew (conj Hearly
    (no_contact_before_pointerdown (H := example_imports) rectangle
       (Some pan_options) self early_samples Hnew Hearly))).
Defined.

Lemma constructor_names_unsupported_type_witness :
  let good := [JSObject pan_recorder; JSGestureClass Tap] in
  let gestures := [Some pan_recorder; Some (new_Gesture Tap rectangle)] in
  opt_supportedGestures options_with_number
    = Some (good ++ JSNumber 7 :: [JSGestureClass Pan]) /\
  instantiate_all rectangle good = Normal gestures /\
  typeof (JSNumber 7) <> "function" /\
  typeof (JSNumber 7) <> "object" /\
  constructor rectangle (Some options_with_number) =
    Throw (Error ("unsupported gesture type: " +:+ typeof (JSNumber 7))).
Proof.
  intros good gestures.
  assert (Hopts : opt_supportedGestures options_with_number
            = Some (good ++ JSNumber 7 :: [JSGestureClass Pan])) by reflexivity.
  assert (Hgood : instantiate_all rectangle good = Normal gestures) by reflexivity.
  assert (Hfunction : typeof (JSNumber 7) <> "function") by discriminate.
  assert (Hobject : typeof (JSNumber 7) <> "object") by discriminate.
  exact (conj Hopts (conj Hgood (conj Hfunction (conj Hobject
    (constructor_names_unsupported_type (H := example_imports) rectangle
       options_with_number good [JSGestureClass Pan] (JSNumber 7) gestures
       Hopts Hgood Hfunction Hobject))))).
Defined.

Lemma constructor_keeps_order_witness :
  let self :=
    listener_with [Some pan_recorder; Some (new_Gesture Tap rectangle); None] None in
  opt_supportedGestures (options_with mixed_gestures) = Some mixed_gestures /\
  constructor rectangle (Some (options_with mixed_gestures)) = Normal self /\
  length (supportedGestures (options self)) = length mixed_gestures /\
  (forall i g, mixed_gestures !! i = Some (JSObject g) ->
     supportedGestures (options self) !! i = Some (Some g)) /\
  (forall i c, mixed_gestures !! i = Some (JSGestureClass c) ->
     supportedGestures (options self) !! i = Some (Some (new_Gesture c rectangle))) /\
  (forall i, mixed_gestures !! i = Some JSNull ->
     supportedGestures (options self) !! i = Some None).
Proof.
  intros self.
  assert (Hopts : opt_supportedGestures (options_with mixed_gestures)
            = Some mixed_gestures) by reflexivity.
  assert (Hnew : constructor rectangle (Some (options_with mixed_gestures))
            = Normal self) by reflexivity.
  exact (conj Hopts (conj Hnew
    (constructor_keeps_order (H := example_imports) rectangle
       (options_with mixed_gestures) mixed_gestures self Hopts Hnew))).
Defined.

Lemma touchmove_only_when_enabled_witness :
  let samples := [Down (sample 1 10 10 0); Move (sample 1 12 10 5)] in
  (exists self0,
     constructor rectangle (Some options_without_touch) = Normal self0 /\
     let self := (deliver samples self0).1 in
     dispatch (RawTouchMove (touch 6)) self = (self, [], Normal tt)) /\
  (let self0 := listener_with [Some pan_recorder] None in
   constructor rectangle (Some pan_options) = Normal self0 /\
   let self := (deliver samples self0).1 in
   dispatch (RawTouchMove (touch 6)) self = touchmove (touch 6) self).
Proof.
  intros samples. split.
  - eexists. split; [reflexivity|].
    apply (touchmove_only_when_enabled (H := example_imports) rectangle
             (Some options_without_touch) _ samples (touch 6) eq_refl).
    reflexivity.
  - intros self0. split; [reflexivity|].
    apply (touchmove_only_when_enabled (H := example_imports) rectangle
             (Some pan_options) self0 samples (touch 6) eq_refl).
    discriminate.
Defined.


Lemma hook_called_last_witness :
  let self := listener_in_contact in
  let s := Move (sample 1 12 10 5) in
  Forall is_Some (supportedGestures (options self)) /\
  let trace := (handler s self).1.2 in
  hook_calls trace = from_option (fun call => [call]) [] (hook_of s self) /\
  (forall h event, hook_of s self = Some (h, event) -> last trace = Some (CallHook h event)).
Proof.
  intros self s.
  assert (Hgestures : Forall is_Some (supportedGestures (options self)))
    by (repeat constructor; by eexists).
  exact (conj Hgestures
    (hook_called_last (H := example_imports) s self Hgestures)).
Defined.

End Scenarios.

(** *** The page on concrete input *)

Import GesturesTest TestPage Examples Scenarios.

Lemma requestElementUpdate_one_frame_witness :
  exists after out,
    requestElementUpdate page = (after, out, Normal tt) /\
    ticking after = true /\
    after = with_ticking true page /\
    (ticking page = true -> out = []) /\
    (ticking page = false -> exists text, out = [RequestAnimationFrame text]) /\
    requestElementUpdate after = (after, [], Normal tt).
Proof.
  eexists _, _. split; [by vm_compute|].
  eapply (requestElementUpdate_one_frame (H := example_builtins)). by vm_compute.
Defined.

Lemma onPinch_needs_scale_witness :
  path (detail pinch_event) ["global"; "scale"] = Normal (Number 2) /\
  not_null (Number 2) = true /\
  exists after out,
    onPinch pinch_event page = (after, out, Normal tt) /\
    scale_x (transform after) = Number 2 /\
    ticking after = true.
Proof.
  assert (Hscale : path (detail pinch_event) ["global"; "scale"] = Normal (Number 2))
    by reflexivity.
  pose proof (onPinch_needs_scale (H := example_builtins) pinch_event (Number 2)
                page Hscale) as [_ Hpinch].
  split; [done|]. split; [reflexivity|].
  eexists _, _. split; [by vm_compute|].
  edestruct (Hpinch eq_refl) as [Htransform Hticking]; [by vm_compute|].
  split; [by rewrite Htransform|done].
Defined.


Lemma clearOutput_clears_witness :
  exists after out,
    clearOutput (event_of "panend") page = (after, out, Normal tt) /\
    out = [] /\
    document after !! "swipe-output" = Some "" /\
    (forall id, output_element (event_of "panend") = Normal id ->
       document after !! id = Some "") /\
    (forall id, id ∈ motion_elements -> document after !! id = document page !! id) /\
    dom (document after) = dom (document page) /\
    after = with_document (document after) page.
Proof.
  eexists _, _. split; [by vm_compute|].
  eapply (clearOutput_clears (H := example_builtins)). by vm_compute.
Defined.

Lemma TWOFINGERPANACTIVE_stays_set_witness :
  let event := event_of "twofingerpanend" in
  (type event = "twofingerpanstart" \/ type event = "twofingerpanend") /\
  let s' := run pan_steps (on_event event session).1.1 in
  TWOFINGERPANACTIVE s' = true /\
  onEnd (event_of "panend") s' = (s', [], Normal tt).
Proof.
  intros event.
  assert (Htype : type event = "twofingerpanstart" \/ type event = "twofingerpanend")
    by (right; reflexivity).
  exact (conj Htype
    (TWOFINGERPANACTIVE_stays_set (H := example_builtins) event (event_of "panend")
       pan_steps session Htype)).
Defined.

Lemma tap_holds_back_pointerup_reset_witness :
  let event := event_of "tap" in
  ((type event = "tap" /\ existsb clears_TAP_ACTIVE pan_steps = false) \/
   (type event = "press" /\ existsb clears_PRESS_ACTIVE pan_steps = false)) /\
  let s' := run pan_steps (on_event event session).1.1 in
  (on_page (pointerup_hook listener_of_test) s').1 = (s', []).
Proof.
  intros event.
  assert (Htype : (type event = "tap" /\ existsb clears_TAP_ACTIVE pan_steps = false) \/
                  (type event = "press" /\ existsb clears_PRESS_ACTIVE pan_steps = false))
    by (left; split; reflexivity).
  exact (conj Htype
    (tap_holds_back_pointerup_reset (H := example_builtins) event pan_steps
       listener_of_test session Htype)).
Defined.

Lemma PINCHACTIVE_is_never_read_witness :
  same_but_PINCHACTIVE session_in_pinch session /\
  log pinch_steps session_in_pinch = log pinch_steps session /\
  same_but_PINCHACTIVE (run pinch_steps session_in_pinch) (run pinch_steps session).
Proof.
  assert (Hsame : same_but_PINCHACTIVE session_in_pinch session)
    by (repeat split; reflexivity).
  exact (conj Hsame
    (PINCHACTIVE_is_never_read (H := example_builtins) pinch_steps
       session_in_pinch session Hsame)).
Defined.
